(** * depInject: a shallow embedding of the dependency-injection container

    The development follows [depinject.h].  C++ objects that are reached
    through pointers (containers, instance storages, constructed
    instances) live in an explicit heap and are named by their index;
    the resolution context is threaded explicitly; exceptions are a
    distinguished outcome, and the destructors that run while a scope is
    left are applied on every outcome. *)

From stdpp Require Import gmap strings list fin_maps.
From Stdlib Require Import Lia.

(** ** Component identity *)

(** [std::type_info]: one token per distinct type, compared with [==]. *)
Abbreviation type_info := nat (only parsing).

(** [struct depInject_unspecified_component {}]: the type of the root frame. *)
Definition depInject_unspecified_component : type_info := 0.

Record component_type := mk_component_type {
  typeInfo : type_info;
  customName : string
}.

(** Facts about the program's types that are fixed at compile time. *)
Record TypeTable := {
  (** [typeid(T).name()] *)
  type_info_name : type_info → string;
  (** [typeid(T).hash_code()] *)
  hash_code : type_info → N;
  (** [T::name()] when [has_name<T>] holds *)
  static_name : type_info → option string;
  (** the argument types of the constructor marked with [INJECT], with
      [std::shared_ptr] trimmed as [Container::get] does *)
  ctor_args : type_info → list type_info;
  (** C++ leaves the evaluation order of the arguments of
      [std::make_shared<T>(container.get<Args>(context)...)] unspecified;
      [true] evaluates the last argument first. *)
  right_to_left : bool
}.

Definition make_component_type (T : type_info) (customName : string) : component_type :=
  mk_component_type T customName.

(** [bool operator==(const component_type&, const component_type&)] *)
Definition component_type_eqb (first other : component_type) : bool :=
  bool_decide (typeInfo first = typeInfo other).

Definition specified (t : component_type) : bool :=
  negb (bool_decide (typeInfo t = depInject_unspecified_component)).

(** ** Exceptions *)

Inductive exn :=
  | CircularDependencyFound (type : component_type)
  | ComponentNotFoundException (type : component_type).

(** ** Heap objects *)

(** [CastInstanceRetriever]: holds the shared pointer to its storage.  The
    pointer cast of [forwardInstance] is an upcast (guarded by the
    [static_assert] of [registerType]) and keeps the address. *)
Record CastInstanceRetriever := mk_retriever { storage_ : nat }.

(** [InstanceStorage<TImplementation, ConstructorFactory<TImplementation>>] *)
Record InstanceStorage := mk_storage {
  TImplementation : type_info;
  mIsSingleton : bool;
  mInstance : option nat
}.

Record Container := mk_container {
  parentContainer_ : option nat;
  registrations_ : gmap nat (list CastInstanceRetriever)
}.

(** An instance built by [std::make_shared<TInstance>(args...)]: its
    dynamic type and the dependencies its constructor received. *)
Record Object := mk_object {
  obj_type : type_info;
  obj_args : list nat
}.

(** [factory_calls] is a ghost trace, not program state: the storage whose
    [factory_.createInstance] runs is recorded at the head. *)
Record Heap := mk_heap {
  containers : list Container;
  storages : list InstanceStorage;
  objects : list Object;
  factory_calls : list nat
}.

Record InjectionContext := mk_context {
  container_ : nat;
  componentStack_ : list component_type
}.

Definition getContainer (c : InjectionContext) : nat := container_ c.

Definition pushType (c : InjectionContext) (type : component_type) : InjectionContext :=
  mk_context (container_ c) (componentStack_ c ++ [type]).

Definition popType (c : InjectionContext) : InjectionContext :=
  mk_context (container_ c) (removelast (componentStack_ c)).

Definition getComponentStack (c : InjectionContext) : list component_type :=
  componentStack_ c.

(** The constructor of [InjectionContext] pushes the requester's frame. *)
Definition InjectionContext_new (container : nat) (requesterComponent : component_type)
  : InjectionContext :=
  pushType (mk_context container []) requesterComponent.

(** ** Outcomes and the resolution monad *)

(** [OutOfFuel]: the call nests deeper than the fuel allows.  [Undefined]:
    a dangling container or storage pointer, or a cyclic parent chain. *)
Inductive Outcome (A : Type) :=
  | Return (a : A)
  | Throw (e : exn)
  | OutOfFuel
  | Undefined.
Arguments Return {A} a.
Arguments Throw {A} e.
Arguments OutOfFuel {A}.
Arguments Undefined {A}.

Definition M (A : Type) : Type :=
  InjectionContext → Heap → Outcome A * InjectionContext * Heap.

Definition ret {A} (a : A) : M A := λ c h, (Return a, c, h).

Definition throw {A} (e : exn) : M A := λ c h, (Throw e, c, h).

Definition bind {A B} (m : M A) (f : A → M B) : M B :=
  λ c h,
    match m c h with
    | (Return a, c', h') => f a c' h'
    | (Throw e, c', h') => (Throw e, c', h')
    | (OutOfFuel, c', h') => (OutOfFuel, c', h')
    | (Undefined, c', h') => (Undefined, c', h')
    end.

Notation "x <- m ;; k" := (bind m (λ x, k))
  (at level 100, m at next level, right associativity, only parsing).

(** ** Container lookup *)

(** [Container::findInstanceRetrievers]: the accumulator is the vector
    passed by reference.  The recursion follows parent pointers; [n]
    bounds the number of containers visited. *)
Fixpoint findInstanceRetrievers_from (n : nat) (cs : list Container)
    (instanceRetrievers : list CastInstanceRetriever) (this : nat) (type : component_type)
  : option (list CastInstanceRetriever) :=
  match n with
  | 0 => None
  | S n' =>
    match cs !! this with
    | None => None
    | Some c =>
      let instanceRetrievers' :=
        match registrations_ c !! typeInfo type with
        | Some currentRetrievers => instanceRetrievers ++ currentRetrievers
        | None => instanceRetrievers
        end in
      match parentContainer_ c with
      | Some parent => findInstanceRetrievers_from n' cs instanceRetrievers' parent type
      | None => Some instanceRetrievers'
      end
    end
  end.

(** A parent chain that visits more containers than the heap holds is
    cyclic, so [length cs] steps decide whether the walk ends. *)
Definition findInstanceRetrievers (cs : list Container) (this : nat) (type : component_type)
  : option (list CastInstanceRetriever) :=
  findInstanceRetrievers_from (length cs) cs [] this type.

(** ** Cycle check *)

(** [ContextGuard::ensureNoCycle]: compares every frame below the top with
    the top.  The guard's constructor has pushed, so the stack is not
    empty when this runs. *)
Definition ensureNoCycle (context : InjectionContext) : option exn :=
  let stack := getComponentStack context in
  match last stack with
  | None => None
  | Some back =>
    if existsb (λ x, component_type_eqb x back) (take (length stack - 1) stack)
    then Some (CircularDependencyFound back)
    else None
  end.

Section Resolution.

Context (tt : TypeTable).

(** [component_type::name] *)
Definition name (t : component_type) : string :=
  if bool_decide (customName t = EmptyString) then type_info_name tt (typeInfo t) else customName t.

(** [component_type_hash::operator()] *)
Definition component_type_hash (type : component_type) : N :=
  hash_code tt (typeInfo type).

(** [type_name<T>::value()] *)
Definition type_name (T : type_info) : string :=
  match static_name tt T with
  | Some n => n
  | None => type_info_name tt T
  end.

(** [std::logic_error::what] of the two exceptions. *)
Definition what (e : exn) : string :=
  match e with
  | CircularDependencyFound type =>
      String.append "Found circular dependency on object '"%string
                    (String.append (name type) "'"%string)
  | ComponentNotFoundException type =>
      String.append "Component for interface '"%string
                    (String.append (name type) "' not found"%string)
  end.

Definition arg_order {A} (l : list A) : list A :=
  if right_to_left tt then rev l else l.

(** [std::make_shared<TInstance>(args...)] *)
Definition make_shared (TInstance : type_info) (args : list nat) : M nat :=
  λ c h,
    (Return (length (objects h)), c,
     mk_heap (containers h) (storages h)
             (objects h ++ [mk_object TInstance args]) (factory_calls h)).

(** The pack expansion [container.get<TConstructorArgs>(context)...]. *)
Fixpoint get_args (getf : type_info → M nat) (args : list type_info) : M (list nat) :=
  match args with
  | [] => ret []
  | T :: rest =>
      a <- getf T ;;
      others <- get_args getf rest ;;
      ret (a :: others)
  end.

(** [ConstructorInvoker<TInstance(TConstructorArgs...)>::invoke]; [getf]
    is [Container::get] one level down. *)
Definition invoke (getf : nat → type_info → M nat) (TInstance : type_info) : M nat :=
  λ context h,
    let container := getContainer context in
    (ptrs <- get_args (getf container) (arg_order (ctor_args tt TInstance)) ;;
     make_shared TInstance (arg_order ptrs)) context h.

(** [ConstructorFactory<TInstance>::createInstance], the member [factory_]
    of storage [sid]. *)
Definition factory_createInstance (getf : nat → type_info → M nat) (sid : nat)
    (TInstance : type_info) : M nat :=
  λ context h,
    invoke getf TInstance context
      (mk_heap (containers h) (storages h) (objects h) (sid :: factory_calls h)).

(** [InstanceStorage::createInstance]: the guard pushes, the check and the
    factory run, and the guard's destructor pops on every way out. *)
Definition createInstance (getf : nat → type_info → M nat) (sid : nat) (T : type_info)
  : M nat :=
  λ context h,
    let context1 := pushType context (make_component_type T (type_name T)) in
    let '(r, context2, h2) :=
      match ensureNoCycle context1 with
      | Some e => (Throw e, context1, h)
      | None => factory_createInstance getf sid T context1 h
      end in
    (r, popType context2, h2).

Definition set_mInstance (sid : nat) (a : nat) (h : Heap) : Heap :=
  match storages h !! sid with
  | Some s =>
      mk_heap (containers h)
              (<[sid := mk_storage (TImplementation s) (mIsSingleton s) (Some a)]> (storages h))
              (objects h) (factory_calls h)
  | None => h
  end.

(** [InstanceStorage::getInstance] on the storage at [sid]. *)
Definition getInstance (getf : nat → type_info → M nat) (sid : nat) : M nat :=
  λ context h,
    match storages h !! sid with
    | None => (Undefined, context, h)
    | Some s =>
      if negb (mIsSingleton s) then createInstance getf sid (TImplementation s) context h
      else
        match mInstance s with
        | Some a => (Return a, context, h)
        | None =>
          match createInstance getf sid (TImplementation s) context h with
          | (Return a, context', h') => (Return a, context', set_mInstance sid a h')
          | other => other
          end
        end
    end.

(** [CastInstanceRetriever::forwardInstance] *)
Definition forwardInstance (getf : nat → type_info → M nat) (r : CastInstanceRetriever)
  : M nat :=
  getInstance getf (storage_ r).

(** The body of [Container::get] once [context] is not null. *)
Definition Container_get (getf : nat → type_info → M nat) (this : nat)
    (TInterface : type_info) : M nat :=
  λ context h,
    let type := make_component_type TInterface EmptyString in
    match findInstanceRetrievers (containers h) this type with
    | None => (Undefined, context, h)
    | Some [] => (Throw (ComponentNotFoundException type), context, h)
    | Some (retriever :: _) => forwardInstance getf retriever context h
    end.

(** [Container::get] with a context: [fuel] bounds how deep calls of
    [get] nest. *)
Fixpoint get (fuel : nat) (this : nat) (TInterface : type_info) : M nat :=
  match fuel with
  | 0 => λ context h, (OutOfFuel, context, h)
  | S n => Container_get (get n) this TInterface
  end.

(** [Container::get] with [context == nullptr]: a context with the root
    frame is made for the call and destroyed when the call is left. *)
Definition get_root (fuel : nat) (this : nat) (TInterface : type_info) (h : Heap)
  : Outcome nat * Heap :=
  let context :=
    InjectionContext_new this
      (make_component_type depInject_unspecified_component "Unspecified"%string) in
  let '(r, _, h') := get fuel this TInterface context h in
  (r, h').

End Resolution.

(** ** Registration *)

(** The two constructors of [Container]: without and with a parent. *)
Definition Container_new (parentContainer : option nat) (h : Heap) : nat * Heap :=
  (length (containers h),
   mk_heap (containers h ++ [mk_container parentContainer ∅])
           (storages h) (objects h) (factory_calls h)).

(** [ComponentBuilderBase<TComponent>::registerType]:
    [registrations_[key]] makes an empty vector for a new key, and
    [emplace_back] appends.  [container_] is the [this] of the container
    that made the builder; for an index outside the heap nothing is written. *)
Definition registerType (container_ : nat) (TComponent : type_info) (instanceStorage : nat)
    (h : Heap) : Heap :=
  match containers h !! container_ with
  | Some c =>
      let regs := registrations_ c in
      let entry := default [] (regs !! TComponent) ++ [mk_retriever instanceStorage] in
      mk_heap (<[container_ := mk_container (parentContainer_ c) (<[TComponent := entry]> regs)]>
                 (containers h))
              (storages h) (objects h) (factory_calls h)
  | None => h
  end.

(** [bind<TComponent>().to<TImplementation>()]: returns the storage the
    configuration handle points to. *)
Definition to (container_ : nat) (TComponent TImplementation : type_info) (h : Heap)
  : nat * Heap :=
  let instanceStorage := length (storages h) in
  let h1 := mk_heap (containers h)
                    (storages h ++ [mk_storage TImplementation false None])
                    (objects h) (factory_calls h) in
  (instanceStorage, registerType container_ TComponent instanceStorage h1).

(** [bind<T>().ToSelf()] *)
Definition ToSelf (container_ : nat) (T : type_info) (h : Heap) : nat * Heap :=
  to container_ T T h.

(** [InstanceStorage::setSingleton] *)
Definition setSingleton (sid : nat) (value : bool) (h : Heap) : Heap :=
  match storages h !! sid with
  | Some s =>
      mk_heap (containers h)
              (<[sid := mk_storage (TImplementation s) value (mInstance s)]> (storages h))
              (objects h) (factory_calls h)
  | None => h
  end.

(** [StorageConfiguration::InSingletonScope] *)
Definition InSingletonScope (storage_ : nat) (h : Heap) : Heap :=
  setSingleton storage_ true h.

Definition empty_heap : Heap := mk_heap [] [] [] [].

(** * Vocabulary of the statements *)

(** The type tokens of the frames on the stack, bottom first. *)
Definition tokens (c : InjectionContext) : list nat := typeInfo <$> componentStack_ c.

(** How often the factory of storage [sid] has run, by the ghost trace. *)
Definition factory_runs (sid : nat) (h : Heap) : nat :=
  count_occ Nat.eq_dec (factory_calls h) sid.

(** How a storage may change while instances are resolved. *)
Record storage_le (s s' : InstanceStorage) : Prop := {
  sle_impl : TImplementation s' = TImplementation s;
  sle_flag : mIsSingleton s' = mIsSingleton s;
  sle_cached : ∀ a, mInstance s = Some a → mInstance s' = Some a;
  sle_transient : mIsSingleton s = false → mInstance s' = mInstance s
}.

(** How the heap may change while a call runs under context [c]: the
    containers stay, storages only fill their cache, objects and the trace
    only grow, and a storage whose implementation is under construction is
    neither written nor constructed again. *)
Record evolves (c : InjectionContext) (h h' : Heap) : Prop := {
  ev_containers : containers h' = containers h;
  ev_storages : Forall2 storage_le (storages h) (storages h');
  ev_objects : objects h `prefix_of` objects h';
  ev_calls : factory_calls h `suffix_of` factory_calls h';
  ev_frozen : ∀ sid s,
    storages h !! sid = Some s → TImplementation s ∈ tokens c →
    storages h' !! sid = Some s ∧ factory_runs sid h' = factory_runs sid h
}.

(** A computation obeys the discipline when it hands the context back as
    it got it and the heap has evolved. *)
Definition obeys {A} (m : M A) : Prop :=
  ∀ c h, ∃ r h', m c h = (r, c, h') ∧ evolves c h h'.

(** The bindings a container holds itself for an identity, in registration
    order. *)
Definition bindings (C : Container) (T : type_info) : list CastInstanceRetriever :=
  default [] (registrations_ C !! T).

(** [on_chain cs this k]: [k] is [this] or one of its ancestors. *)
Inductive on_chain (cs : list Container) : nat → nat → Prop :=
  | on_chain_here this : on_chain cs this this
  | on_chain_parent this C parent k :
      cs !! this = Some C → parentContainer_ C = Some parent →
      on_chain cs parent k → on_chain cs this k.

(** The candidates for [T] seen from [this]: its own bindings, then those
    of the parent chain. *)
Inductive candidates (cs : list Container) (T : type_info)
  : nat → list CastInstanceRetriever → Prop :=
  | candidates_root this C :
      cs !! this = Some C → parentContainer_ C = None →
      candidates cs T this (bindings C T)
  | candidates_child this C parent inherited :
      cs !! this = Some C → parentContainer_ C = Some parent →
      candidates cs T parent inherited →
      candidates cs T this (bindings C T ++ inherited).

(** A container is constructed from a pointer to a parent that exists, so
    a parent is older than its children. *)
Definition parents_older (cs : list Container) : Prop :=
  ∀ i C p, cs !! i = Some C → parentContainer_ C = Some p → p < i.

(** The context a top-level [get] on [this] makes for itself. *)
Definition root_context (this : nat) : InjectionContext :=
  InjectionContext_new this
    (make_component_type depInject_unspecified_component "Unspecified").

(** The distinct implementation types of the registered bindings. *)
Definition impl_types (h : Heap) : list nat :=
  remove_dups (TImplementation <$> storages h).

(** How many of them are not under construction. *)
Definition remaining (c : InjectionContext) (h : Heap) : nat :=
  length (list_difference (impl_types h) (tokens c)).

(** Heaps that the interface can build: a parent is older than its
    children, and every binding points to a storage that exists. *)
Record wf_heap (h : Heap) : Prop := {
  wf_parents : parents_older (containers h);
  wf_storages : ∀ k C T r,
    containers h !! k = Some C → r ∈ bindings C T → storage_ r < length (storages h)
}.

(** The call ended: it returned or threw. *)
Definition settled {A} (r : Outcome A) : Prop :=
  match r with
  | Return _ | Throw _ => True
  | OutOfFuel | Undefined => False
  end.

(** [refines m1 m2]: whenever [m1] ends, [m2] ends the same way. *)
Definition refines {A} (m1 m2 : M A) : Prop :=
  ∀ c h r c' h', m1 c h = (r, c', h') → settled r → m2 c h = (r, c', h').

(** A storage that has no cached instance to hand out. *)
Definition uncached (s : InstanceStorage) : bool :=
  negb (mIsSingleton s) || bool_decide (mInstance s = None).

(** The implementation that [get] for [I] on container [k] starts to
    construct: that of the first candidate, unless its storage returns a
    cached instance. *)
Definition constructs (h : Heap) (k : nat) (I : type_info) : option nat :=
  match findInstanceRetrievers (containers h) k (make_component_type I EmptyString) with
  | Some (r :: _) =>
      match storages h !! storage_ r with
      | Some s => if uncached s then Some (TImplementation s) else None
      | None => None
      end
  | _ => None
  end.

(** The constructor argument that is resolved first. *)
Definition first_dependency (tt : TypeTable) (T : type_info) : option nat :=
  head (arg_order tt (ctor_args tt T)).

(** The implementation whose construction the first dependency of [T]
    starts. *)
Definition next_impl (tt : TypeTable) (h : Heap) (k : nat) (T : type_info) : option nat :=
  match first_dependency tt T with
  | Some D => constructs h k D
  | None => None
  end.

(** [leads_to tt h k T path Tend]: constructing [T] starts the
    implementations of [path] one inside the other, and the last of them
    starts [Tend]. *)
Fixpoint leads_to (tt : TypeTable) (h : Heap) (k : nat) (T : type_info)
    (path : list nat) (Tend : type_info) : Prop :=
  match path with
  | [] => next_impl tt h k T = Some Tend
  | T' :: rest => next_impl tt h k T = Some T' ∧ leads_to tt h k T' rest Tend
  end.

(** Two heaps that differ at most in the ghost trace. *)
Definition same_state (h h' : Heap) : Prop :=
  containers h' = containers h ∧ storages h' = storages h ∧ objects h' = objects h.

(** The exception thrown when the frame of [T] is found twice. *)
Definition cycle_error (tt : TypeTable) (T : type_info) : exn :=
  CircularDependencyFound (make_component_type T (type_name tt T)).

(** The heap after the factory of [sid] was entered. *)
Definition logged (sid : nat) (h : Heap) : Heap :=
  mk_heap (containers h) (storages h) (objects h) (sid :: factory_calls h).

(** The heap after [std::make_shared<T>(args...)]. *)
Definition allocated (T : type_info) (args : list nat) (h : Heap) : Heap :=
  mk_heap (containers h) (storages h) (objects h ++ [mk_object T args]) (factory_calls h).

(** A storage that was never marked singleton has an empty cache. *)
Definition transient_uncached (h : Heap) : Prop :=
  ∀ sid s, storages h !! sid = Some s → mIsSingleton s = false → mInstance s = None.

(** The name an exception message shows for implementation [T]: its
    static [name()] when it has one that is not empty, the
    implementation-defined type name otherwise. *)
Definition display_name (tt : TypeTable) (T : type_info) : string :=
  match static_name tt T with
  | Some n => if bool_decide (n = EmptyString) then type_info_name tt T else n
  | None => type_info_name tt T
  end.

(** The exceptions resolution can throw when the registered storages have
    the implementation types [impls]. *)
Definition known_error (tt : TypeTable) (impls : list nat) (e : exn) : Prop :=
  (∃ I, e = ComponentNotFoundException (make_component_type I EmptyString))
  ∨ (∃ T, T ∈ impls ∧ e = cycle_error tt T).

(** The objects of a heap are in order: a cache points to an object of the
    storage's implementation type, and an object holds as many dependencies
    as its constructor has parameters, all of them built before it. *)
Record heap_ok (tt : TypeTable) (h : Heap) : Prop := {
  ok_cache : ∀ sid s a,
    storages h !! sid = Some s → mInstance s = Some a →
    ∃ o, objects h !! a = Some o ∧ obj_type o = TImplementation s;
  ok_objects : ∀ a o,
    objects h !! a = Some o →
    length (obj_args o) = length (ctor_args tt (obj_type o))
    ∧ Forall (λ b, b < a) (obj_args o)
}.

(** [edge tt h k T T']: the constructor of [T] has a parameter for which
    container [k] finds, first, a binding without cached instance whose
    implementation is [T']. *)
Definition edge (tt : TypeTable) (h : Heap) (k : nat) (T T' : nat) : Prop :=
  ∃ D, D ∈ ctor_args tt T ∧ constructs h k D = Some T'.

(** Constructing [T] reaches, along such edges, an implementation that
    needs itself. *)
Definition reaches_cycle (tt : TypeTable) (h : Heap) (k : nat) (T : nat) : Prop :=
  ∃ Tc, rtc (edge tt h k) T Tc ∧ tc (edge tt h k) Tc Tc.

(** [X] is a constructor parameter of a registered implementation for
    which container [k] finds no binding. *)
Definition unbound_parameter (tt : TypeTable) (h : Heap) (k : nat) (X : nat) : Prop :=
  ∃ sid s,
    storages h !! sid = Some s
    ∧ X ∈ ctor_args tt (TImplementation s)
    ∧ findInstanceRetrievers (containers h) k (make_component_type X EmptyString) = Some [].

(** The storages of [h0] that construct an implementation in [S] and hold
    no cached instance still hold none in [h]. *)
Record keeps_uncached (S : nat → Prop) (h0 h : Heap) : Prop := {
  ku_containers : containers h = containers h0;
  ku_storages : ∀ sid s0,
    storages h0 !! sid = Some s0 → S (TImplementation s0) → uncached s0 = true →
    ∃ s, storages h !! sid = Some s
         ∧ TImplementation s = TImplementation s0 ∧ uncached s = true
}.

(** [h] comes after [h0]: same containers, storages that only filled
    their caches. *)
Record later_than (h0 h : Heap) : Prop := {
  lt_containers : containers h = containers h0;
  lt_storages : Forall2 storage_le (storages h0) (storages h)
}.

(** Why [get] for [D] on [this], with the frames [stack] under
    construction and context container [k], may throw [e]: an identity
    nobody binds, which is [D] itself or a constructor parameter; or an
    implementation reached from [D] that is under construction already or
    needs itself. *)
Definition explained (tt : TypeTable) (h0 : Heap) (k this : nat) (D : nat)
    (stack : list nat) (e : exn) : Prop :=
  (∃ X, e = ComponentNotFoundException (make_component_type X EmptyString)
        ∧ ((X = D
            ∧ findInstanceRetrievers (containers h0) this
                (make_component_type X EmptyString) = Some [])
           ∨ unbound_parameter tt h0 k X))
  ∨ (∃ T1 T', constructs h0 this D = Some T1
              ∧ rtc (edge tt h0 k) T1 T'
              ∧ e = cycle_error tt T'
              ∧ (T' ∈ stack ∨ tc (edge tt h0 k) T' T')).

(** [b] is, in [h'], an object of the implementation type of the first
    candidate that container [k] finds for [D] in [h]. *)
Definition instance_of_first_candidate (h h' : Heap) (k : nat) (D : nat) (b : nat) : Prop :=
  ∃ r rest s o,
    findInstanceRetrievers (containers h) k (make_component_type D EmptyString)
    = Some (r :: rest)
    ∧ storages h !! storage_ r = Some s
    ∧ objects h' !! b = Some o
    ∧ obj_type o = TImplementation s.

(** * The program of [tests.cpp] and a few more types *)

Definition IRunner : type_info := 1.
Definition Cheetah : type_info := 2.
Definition INest : type_info := 3.
Definition SpiderNest : type_info := 4.
Definition Spider : type_info := 5.
Definition Start : type_info := 6.
Definition Middle : type_info := 7.
Definition End_ : type_info := 8.
(** Not in [tests.cpp]: a second runner, a second nest, and two types that
    need each other, one of which also needs a type nobody binds. *)
Definition Leopard : type_info := 9.
Definition WaspNest : type_info := 10.
Definition Ping : type_info := 11.
Definition Pong : type_info := 12.
Definition Unbound : type_info := 13.

(** The constructors marked with [INJECT]; [rtl] picks the order in which
    the compiler evaluates constructor arguments. *)
Definition tests_types (rtl : bool) : TypeTable := {|
  type_info_name := λ T,
    match T with
    | 1 => "IRunner" | 2 => "Cheetah" | 3 => "INest" | 4 => "SpiderNest"
    | 5 => "Spider" | 6 => "Start" | 7 => "Middle" | 8 => "End"
    | 9 => "Leopard" | 10 => "WaspNest" | 11 => "Ping" | 12 => "Pong"
    | _ => "?"
    end%string;
  hash_code := N.of_nat;
  static_name := λ _, None;
  ctor_args := λ T,
    match T with
    | 5 => [INest]
    | 6 => [Middle] | 7 => [End_] | 8 => [Start]
    | 11 => [Unbound; Pong; Unbound] | 12 => [Ping]
    | _ => []
    end;
  right_to_left := rtl
|}.

(** [Container c;] *)
Definition one_container : Heap := (Container_new None empty_heap).2.

(** [c.bind<IRunner>().to<Cheetah>();] *)
Definition heap_runner : Heap := (to 0 IRunner Cheetah one_container).2.

(** [c.bind<IRunner>().to<Cheetah>().InSingletonScope();] *)
Definition heap_runner_singleton : Heap := InSingletonScope 0 heap_runner.

(** [TestNestedDependencies] *)
Definition heap_spider : Heap :=
  InSingletonScope 1 (to 0 INest SpiderNest (ToSelf 0 Spider one_container).2).2.

(** [TestCircularDependency] *)
Definition heap_cycle : Heap :=
  (ToSelf 0 End_ (ToSelf 0 Middle (ToSelf 0 Start one_container).2).2).2.

(** A parent that binds [Spider], [INest] and [IRunner], and a child that
    binds [INest] and [IRunner] again. *)
Definition heap_family : Heap :=
  (to 1 IRunner Leopard
     (to 1 INest WaspNest
        (Container_new (Some 0)
           (to 0 IRunner Cheetah
              (to 0 INest SpiderNest (ToSelf 0 Spider one_container).2).2).2).2).2).2.

(** [Ping] and [Pong] bound to themselves; nothing binds [Unbound]. *)
Definition heap_ping_pong : Heap :=
  (ToSelf 0 Pong (ToSelf 0 Ping one_container).2).2.

(** The containers of these heaps, read back from the heap. *)
Definition family_parent : Container :=
  default (mk_container None ∅) (containers heap_family !! 0).

Definition family_child : Container :=
  default (mk_container None ∅) (containers heap_family !! 1).

Definition runner_container : Container :=
  default (mk_container None ∅) (containers heap_runner !! 0).

(** One container in which two bindings, [IRunner] to [Cheetah] and
    [Cheetah] to itself, are both singletons. *)
Definition heap_two_singletons : Heap :=
  InSingletonScope 1 (InSingletonScope 0
    (ToSelf 0 Cheetah (to 0 IRunner Cheetah one_container).2).2).

(** A service whose constructor takes a logger and then a client, a
    client that needs the service, and a logger without dependencies. *)
Definition Service : type_info := 20.
Definition Logger : type_info := 21.
Definition Client : type_info := 22.

Definition service_types (rtl : bool) : TypeTable := {|
  type_info_name := λ T,
    match T with
    | 20 => "Service" | 21 => "Logger" | 22 => "Client"
    | _ => "?"
    end%string;
  hash_code := N.of_nat;
  static_name := λ _, None;
  ctor_args := λ T,
    match T with
    | 20 => [Logger; Client]
    | 22 => [Service]
    | _ => []
    end;
  right_to_left := rtl
|}.

(** All three bound to themselves in one container. *)
Definition heap_service : Heap :=
  (ToSelf 0 Logger (ToSelf 0 Client (ToSelf 0 Service one_container).2).2).2.

(** * Reasoning principles *)

Lemma popType_pushType c f : popType (pushType c f) = c.
Proof.
  destruct c as [k st]. unfold popType, pushType. simpl.
  by rewrite removelast_last.
Qed.

Lemma tokens_pushType c f : tokens (pushType c f) = tokens c ++ [typeInfo f].
Proof. unfold tokens, pushType. simpl. by rewrite fmap_app. Qed.

Lemma component_type_eqb_true a b :
  component_type_eqb a b = true ↔ typeInfo a = typeInfo b.
Proof. unfold component_type_eqb. by rewrite bool_decide_eq_true. Qed.

Lemma ensureNoCycle_pushType c f :
  ensureNoCycle (pushType c f) =
  if bool_decide (typeInfo f ∈ tokens c) then Some (CircularDependencyFound f) else None.
Proof.
  unfold ensureNoCycle, getComponentStack, pushType, tokens. simpl.
  rewrite last_snoc, length_app. simpl.
  replace (length (componentStack_ c) + 1 - 1) with (length (componentStack_ c)) by lia.
  rewrite take_app_length.
  destruct (existsb _ _) eqn:E.
  - apply existsb_exists in E as (x & Hin & Hx).
    apply component_type_eqb_true in Hx.
    rewrite bool_decide_eq_true_2; [done|].
    apply list_elem_of_fmap. exists x. split; [done|]. by apply list_elem_of_In.
  - rewrite bool_decide_eq_false_2; [done|].
    intros (x & Hx & Hin)%list_elem_of_fmap.
    assert (existsb (λ x, component_type_eqb x f) (componentStack_ c) = true) as E'.
    { apply existsb_exists. exists x. split; [by apply list_elem_of_In|].
      by apply component_type_eqb_true. }
    congruence.
Qed.

Lemma storage_le_refl s : storage_le s s.
Proof. by split. Qed.

Lemma storage_le_trans s1 s2 s3 : storage_le s1 s2 → storage_le s2 s3 → storage_le s1 s3.
Proof.
  intros [I1 F1 C1 T1] [I2 F2 C2 T2]. split.
  - congruence.
  - congruence.
  - intros a Ha. apply C2, C1, Ha.
  - intros Hf. rewrite T2, T1; [done|done|congruence].
Qed.

Lemma evolves_refl c h : evolves c h h.
Proof.
  split; try done.
  apply Forall2_same_length_lookup_2; [done|].
  intros i x y Hx Hy. rewrite Hx in Hy. injection Hy as <-. apply storage_le_refl.
Qed.

Lemma evolves_trans c h1 h2 h3 : evolves c h1 h2 → evolves c h2 h3 → evolves c h1 h3.
Proof.
  intros [C1 S1 O1 L1 F1] [C2 S2 O2 L2 F2]. split.
  - congruence.
  - eapply Forall2_trans; [|exact S1|exact S2].
    intros x y z. apply storage_le_trans.
  - by etrans.
  - by etrans.
  - intros sid s Hs Ht.
    destruct (F1 sid s Hs Ht) as [Hs2 R2].
    destruct (F2 sid s Hs2 Ht) as [Hs3 R3].
    split; [done|congruence].
Qed.

Lemma obeys_ret {A} (a : A) : obeys (ret a).
Proof. intros c h. exists (Return a), h. split; [done|apply evolves_refl]. Qed.

Lemma obeys_bind {A B} (m : M A) (f : A → M B) :
  obeys m → (∀ a, obeys (f a)) → obeys (bind m f).
Proof.
  intros Hm Hf c h. unfold bind.
  destruct (Hm c h) as (r & h' & -> & Hev).
  destruct r as [a|e| |].
  - destruct (Hf a c h') as (r2 & h2 & -> & Hev2).
    exists r2, h2. split; [done|]. by eapply evolves_trans.
  - by exists (Throw e), h'.
  - by exists OutOfFuel, h'.
  - by exists Undefined, h'.
Qed.

Lemma obeys_get_args getf args :
  (∀ T, obeys (getf T)) → obeys (get_args getf args).
Proof.
  intros Hg. induction args as [|T rest IH]; simpl.
  - apply obeys_ret.
  - apply obeys_bind; [apply Hg|]. intros a.
    apply obeys_bind; [apply IH|]. intros others. apply obeys_ret.
Qed.

Lemma obeys_make_shared T args : obeys (make_shared T args).
Proof.
  intros c h. eexists _, _. split; [reflexivity|].
  split; simpl; try done.
  - apply Forall2_same_length_lookup_2; [done|].
    intros i x y Hx Hy. rewrite Hx in Hy. injection Hy as <-. apply storage_le_refl.
  - by apply prefix_app_r.
Qed.

Section Discipline.

Context (tt : TypeTable).
Context (getf : nat → type_info → M nat).
Context (Hgetf : ∀ k T, obeys (getf k T)).

Lemma obeys_invoke T : obeys (invoke tt getf T).
Proof.
  intros c h. unfold invoke.
  apply obeys_bind; [apply obeys_get_args, Hgetf|].
  intros ptrs. apply obeys_make_shared.
Qed.

(** [createInstance] leaves its own storage as it found it, and returns
    an instance only when the implementation was not under construction. *)
Lemma createInstance_obeys sid s c h :
  storages h !! sid = Some s →
  ∃ r h', createInstance tt getf sid (TImplementation s) c h = (r, c, h')
          ∧ evolves c h h'
          ∧ storages h' !! sid = Some s
          ∧ (∀ a, r = Return a → TImplementation s ∉ tokens c).
Proof.
  intros Hs. unfold createInstance.
  rewrite ensureNoCycle_pushType. simpl.
  case_bool_decide as Hin.
  - eexists _, h. rewrite popType_pushType.
    split; [reflexivity|]. split; [apply evolves_refl|]. split; [done|]. done.
  - unfold factory_createInstance.
    set (f := make_component_type (TImplementation s) (type_name tt (TImplementation s))).
    set (h1 := mk_heap _ _ _ _).
    destruct (obeys_invoke (TImplementation s) (pushType c f) h1) as (r & h2 & -> & Hev).
    exists r, h2. rewrite popType_pushType.
    split; [done|].
    destruct Hev as [C S O L F]. subst h1. simpl in *.
    assert (TImplementation s ∈ tokens (pushType c f)) as Hnew.
    { rewrite tokens_pushType. apply elem_of_app. right. by apply list_elem_of_singleton. }
    split; [|split].
    + split; try done.
      * etrans; [|exact L]. by apply suffix_cons_r.
      * intros sid0 s0 Hs0 Ht0.
        destruct (F sid0 s0 Hs0) as [Hs0' R0].
        { rewrite tokens_pushType. apply elem_of_app. by left. }
        split; [done|]. rewrite R0. unfold factory_runs. simpl.
        destruct (Nat.eq_dec sid sid0) as [->|Hne]; [|done].
        rewrite Hs in Hs0. injection Hs0 as <-. done.
    + by destruct (F sid s Hs Hnew).
    + done.
Qed.

Lemma set_mInstance_evolves sid s a c h h' :
  evolves c h h' →
  storages h !! sid = Some s → storages h' !! sid = Some s →
  mIsSingleton s = true → mInstance s = None →
  TImplementation s ∉ tokens c →
  evolves c h (set_mInstance sid a h').
Proof.
  intros [C S O L F] Hs Hs' Hsing Hnone Hnotin.
  unfold set_mInstance. rewrite Hs'. split; simpl; try done.
  - rewrite <- (list_insert_id (storages h) sid s Hs).
    apply Forall2_insert; [done|].
    split; simpl; [done|done|congruence|congruence].
  - intros sid0 s0 Hs0 Ht0.
    destruct (F sid0 s0 Hs0 Ht0) as [Hs0' R0].
    split; [|done].
    rewrite list_lookup_insert_ne; [done|].
    intros ->. rewrite Hs in Hs0. injection Hs0 as <-. done.
Qed.

Lemma obeys_getInstance sid : obeys (getInstance tt getf sid).
Proof.
  intros c h. unfold getInstance.
  destruct (storages h !! sid) as [s|] eqn:Hs.
  2:{ exists Undefined, h. split; [done|apply evolves_refl]. }
  destruct (createInstance_obeys sid s c h Hs) as (r & h' & E & Hev & Hs' & Hret).
  destruct (mIsSingleton s) eqn:Hsing; simpl.
  - destruct (mInstance s) as [a|] eqn:Hinst.
    + exists (Return a), h. split; [done|apply evolves_refl].
    + rewrite E. destruct r as [a|e| |]; try by eexists _, _.
      eexists _, _. split; [reflexivity|].
      eapply set_mInstance_evolves; eauto.
  - rewrite E. by exists r, h'.
Qed.

Lemma obeys_Container_get this T : obeys (Container_get tt getf this T).
Proof.
  intros c h. unfold Container_get, forwardInstance.
  destruct (findInstanceRetrievers _ _ _) as [[|r rs]|].
  - eexists _, h. split; [reflexivity|apply evolves_refl].
  - apply obeys_getInstance.
  - eexists _, h. split; [reflexivity|apply evolves_refl].
Qed.

End Discipline.

Lemma obeys_get tt fuel this T : obeys (get tt fuel this T).
Proof.
  revert this T. induction fuel as [|n IH]; intros this T; simpl.
  - intros c h. exists OutOfFuel, h. split; [done|apply evolves_refl].
  - apply obeys_Container_get. intros k T'. apply IH.
Qed.

(** * Component identity: equality and hashing *)

(** C8: two component identities are equal exactly when their type tokens
    are the same, whatever their display names; the hash is a function of
    the type token alone, so equal identities hash equally. *)
Theorem component_type_eq_hash_by_token tt (t1 t2 : nat) (n1 n2 n1' n2' : string) :
  (component_type_eqb (mk_component_type t1 n1) (mk_component_type t2 n2) = true ↔ t1 = t2)
  ∧ component_type_eqb (mk_component_type t1 n1) (mk_component_type t2 n2)
    = component_type_eqb (mk_component_type t1 n1') (mk_component_type t2 n2')
  ∧ component_type_hash tt (mk_component_type t1 n1)
    = component_type_hash tt (mk_component_type t1 n1')
  ∧ (component_type_eqb (mk_component_type t1 n1) (mk_component_type t2 n2) = true →
     component_type_hash tt (mk_component_type t1 n1)
     = component_type_hash tt (mk_component_type t2 n2)).
Proof.
  split; [apply component_type_eqb_true|].
  split; [done|]. split; [done|].
  intros E%component_type_eqb_true. simpl in E. by subst.
Qed.

(** * The context stack and the registration table across a call *)

Lemma get_keeps_containers tt fuel this T c h :
  ∃ r h', get tt fuel this T c h = (r, c, h') ∧ containers h' = containers h.
Proof.
  destruct (obeys_get tt fuel this T c h) as (r & h' & E & Hev).
  exists r, h'. split; [done|]. apply Hev.
Qed.

(** C7: a construction attempt runs its factory with the frame of the
    implementation pushed and gets the context back with exactly that frame
    on top, which is then popped; a failed cycle check pops it as well.  So
    after [createInstance], after [get] with a context, and after a
    top-level [get], whatever the outcome, the context stack is what it was
    before the call and the registration tables are unchanged. *)
Theorem context_restored_on_every_exit tt fuel sid this T context h :
  let frame := make_component_type T (type_name tt T) in
  (∃ r h',
      createInstance tt (get tt fuel) sid T context h = (r, context, h')
      ∧ containers h' = containers h
      ∧ match ensureNoCycle (pushType context frame) with
        | Some e => r = Throw e ∧ h' = h
        | None =>
            factory_createInstance tt (get tt fuel) sid T (pushType context frame) h
            = (r, pushType context frame, h')
        end)
  ∧ (∃ r h', get tt fuel this T context h = (r, context, h')
             ∧ containers h' = containers h)
  ∧ containers (get_root tt fuel this T h).2 = containers h.
Proof.
  intros frame. split; [|split].
  - unfold createInstance. fold frame.
    destruct (ensureNoCycle (pushType context frame)) as [e|] eqn:E.
    + exists (Throw e), h. by rewrite popType_pushType.
    + unfold factory_createInstance.
      set (h1 := mk_heap _ _ _ _).
      destruct (obeys_invoke tt (get tt fuel) (obeys_get tt fuel) T (pushType context frame) h1)
        as (r & h2 & -> & Hev).
      exists r, h2. rewrite popType_pushType. split; [done|]. split; [|done].
      by rewrite (ev_containers _ _ _ Hev).
  - apply get_keeps_containers.
  - unfold get_root.
    destruct (get_keeps_containers tt fuel this T
                (InjectionContext_new this
                   (make_component_type depInject_unspecified_component "Unspecified")) h)
      as (r & h' & -> & Hc).
    done.
Qed.

(** * Lookup along the parent chain *)

Lemma findInstanceRetrievers_from_candidates cs T this l :
  parents_older cs → candidates cs T this l →
  ∀ n acc nm, this < n →
    findInstanceRetrievers_from n cs acc this (mk_component_type T nm) = Some (acc ++ l).
Proof.
  intros Hold Hc. induction Hc as [this C HC Hp|this C parent inherited HC Hp Hc IH];
    intros n acc nm Hn; (destruct n as [|n]; [lia|]); simpl; rewrite HC, Hp.
  - unfold bindings. destruct (registrations_ C !! T); simpl; [done|by rewrite app_nil_r].
  - specialize (Hold _ _ _ HC Hp).
    rewrite IH by lia. unfold bindings.
    destruct (registrations_ C !! T); simpl; by rewrite ?app_nil_r, ?app_assoc.
Qed.

Lemma findInstanceRetrievers_candidates cs T this l nm :
  parents_older cs → candidates cs T this l →
  findInstanceRetrievers cs this (mk_component_type T nm) = Some l.
Proof.
  intros Hold Hc. unfold findInstanceRetrievers.
  rewrite (findInstanceRetrievers_from_candidates cs T this l Hold Hc); [done|].
  destruct Hc as [? ? HC _|? ? ? ? HC _ _]; by apply lookup_lt_Some in HC.
Qed.

Lemma candidates_exist cs T this :
  parents_older cs → this < length cs → ∃ l, candidates cs T this l.
Proof.
  intros Hold. induction this as [this IH] using lt_wf_ind. intros Hlt.
  destruct (lookup_lt_is_Some_2 cs this Hlt) as [C HC].
  destruct (parentContainer_ C) as [p|] eqn:Hp.
  - pose proof (Hold _ _ _ HC Hp) as Hplt.
    destruct (IH p Hplt) as [l Hl]; [lia|].
    eexists. by eapply candidates_child.
  - eexists. by eapply candidates_root.
Qed.

Lemma candidates_elem cs T this l r :
  candidates cs T this l → r ∈ l →
  ∃ k C, on_chain cs this k ∧ cs !! k = Some C ∧ r ∈ bindings C T.
Proof.
  intros Hc. induction Hc as [this C HC Hp|this C parent inherited HC Hp Hc IH]; intros Hr.
  - exists this, C. split; [constructor|done].
  - apply elem_of_app in Hr as [Hr|Hr].
    + exists this, C. split; [constructor|done].
    + destruct (IH Hr) as (k & K & Hk & HK & Hin).
      exists k, K. split; [|done]. by eapply on_chain_parent.
Qed.

Lemma candidates_unbound cs T this l :
  candidates cs T this l →
  (∀ k C, on_chain cs this k → cs !! k = Some C → bindings C T = []) →
  l = [].
Proof.
  intros Hc Hnone. destruct l as [|r l]; [done|].
  destruct (candidates_elem cs T this (r :: l) r Hc) as (k & C & Hk & HC & Hin).
  { by left. }
  rewrite (Hnone k C Hk HC) in Hin. by apply elem_of_nil in Hin.
Qed.

(** C4: when neither the container nor any container on its parent chain
    holds a binding for [I], [get] throws [ComponentNotFoundException] for
    [I] to its caller and changes nothing; the message carries the name of
    [I]. *)
Theorem unbound_identity_not_found tt fuel this I h :
  parents_older (containers h) →
  this < length (containers h) →
  (∀ k C, on_chain (containers h) this k → containers h !! k = Some C → bindings C I = []) →
  let e := ComponentNotFoundException (make_component_type I EmptyString) in
  get_root tt (S fuel) this I h = (Throw e, h)
  ∧ (∀ context, get tt (S fuel) this I context h = (Throw e, context, h))
  ∧ what tt e = String.append "Component for interface '"
                  (String.append (type_info_name tt I) "' not found").
Proof.
  intros Hold Hlt Hnone e.
  destruct (candidates_exist _ I this Hold Hlt) as [l Hl].
  pose proof (candidates_unbound _ _ _ _ Hl Hnone) as ->.
  assert (∀ context, get tt (S fuel) this I context h = (Throw e, context, h)) as Hget.
  { intros context. simpl. unfold Container_get, make_component_type.
    by rewrite (findInstanceRetrievers_candidates _ _ _ _ _ Hold Hl). }
  split; [|split; [done|done]].
  unfold get_root. by rewrite Hget.
Qed.

(** C5: the candidates seen from a child are its own bindings followed by
    those of the parent chain, and [get] uses the first: when the child
    binds [I] itself, the instance comes from the storage of the child's
    first binding, whatever its ancestors bind. *)
Theorem local_binding_shadows_parent tt fuel child C parent I r rest inherited h :
  parents_older (containers h) →
  containers h !! child = Some C →
  parentContainer_ C = Some parent →
  bindings C I = r :: rest →
  candidates (containers h) I parent inherited →
  findInstanceRetrievers (containers h) child (make_component_type I EmptyString)
  = Some ((r :: rest) ++ inherited)
  ∧ (∀ context, get tt (S fuel) child I context h
                = getInstance tt (get tt fuel) (storage_ r) context h)
  ∧ get_root tt (S fuel) child I h
    = (let '(res, _, h') :=
         getInstance tt (get tt fuel) (storage_ r)
           (InjectionContext_new child
              (make_component_type depInject_unspecified_component "Unspecified")) h
       in (res, h')).
Proof.
  intros Hold HC Hp Hb Hinh.
  assert (findInstanceRetrievers (containers h) child (make_component_type I EmptyString)
          = Some ((r :: rest) ++ inherited)) as Hfind.
  { apply findInstanceRetrievers_candidates; [done|].
    rewrite <- Hb. by eapply candidates_child. }
  split; [done|].
  assert (∀ context, get tt (S fuel) child I context h
                     = getInstance tt (get tt fuel) (storage_ r) context h) as Hget.
  { intros context. simpl. unfold Container_get. by rewrite Hfind. }
  split; [done|].
  unfold get_root. by rewrite Hget.
Qed.

(** * Registration is additive *)

Lemma to_containers c C T Impl h :
  containers h !! c = Some C →
  containers (to c T Impl h).2
  = <[c := mk_container (parentContainer_ C)
             (<[T := bindings C T ++ [mk_retriever (length (storages h))]]>
                (registrations_ C))]> (containers h).
Proof. intros HC. unfold to, registerType. simpl. by rewrite HC. Qed.

Lemma to_lookup c C T Impl h k K I :
  containers h !! c = Some C →
  containers h !! k = Some K →
  ∃ K', containers (to c T Impl h).2 !! k = Some K'
        ∧ parentContainer_ K' = parentContainer_ K
        ∧ bindings K' I
          = bindings K I ++
            (if bool_decide (k = c ∧ I = T) then [mk_retriever (length (storages h))] else []).
Proof.
  intros HC HK. rewrite (to_containers c C T Impl h HC).
  destruct (decide (k = c)) as [->|Hne].
  - rewrite HC in HK. injection HK as <-.
    eexists. split; [apply list_lookup_insert_eq; by eapply lookup_lt_Some|].
    split; [done|]. unfold bindings at 1. simpl.
    destruct (decide (I = T)) as [->|HI].
    + rewrite lookup_insert_eq. simpl. by rewrite bool_decide_eq_true_2.
    + rewrite lookup_insert_ne by done.
      rewrite bool_decide_eq_false_2 by (intros [_ ?]; done).
      by rewrite app_nil_r.
  - exists K. rewrite list_lookup_insert_ne by done.
    split; [done|]. split; [done|].
    rewrite bool_decide_eq_false_2 by (intros [? _]; done).
    by rewrite app_nil_r.
Qed.

Lemma to_parents_older c T Impl h :
  parents_older (containers h) → parents_older (containers (to c T Impl h).2).
Proof.
  intros Hold. destruct (containers h !! c) as [C|] eqn:HC.
  - intros i K p HK Hp.
    rewrite (to_containers c C T Impl h HC) in HK.
    destruct (decide (i = c)) as [->|Hne].
    + rewrite list_lookup_insert_eq in HK by (by eapply lookup_lt_Some).
      injection HK as <-. simpl in Hp. by eapply Hold.
    + rewrite list_lookup_insert_ne in HK by done. by eapply Hold.
  - unfold to, registerType. simpl. by rewrite HC.
Qed.

(** C6: [bind<T>().to<Impl>()] only adds.  It makes one transient storage
    and appends one binding for [T] to the container's table; every
    binding that was there, for any identity in any container, is still
    there in the same place.  [get] uses the earliest binding of the
    container: the first of the old ones when there were any, the new one
    otherwise. *)
Theorem bind_to_is_additive tt c C T Impl h :
  containers h !! c = Some C →
  parents_older (containers h) →
  let sid := length (storages h) in
  let h' := (to c T Impl h).2 in
  (to c T Impl h).1 = sid
  ∧ storages h' = storages h ++ [mk_storage Impl false None]
  ∧ objects h' = objects h
  ∧ length (containers h') = length (containers h)
  ∧ (∀ k K I, containers h !! k = Some K →
       ∃ K', containers h' !! k = Some K'
             ∧ parentContainer_ K' = parentContainer_ K
             ∧ bindings K' I
               = bindings K I ++
                 (if bool_decide (k = c ∧ I = T) then [mk_retriever sid] else []))
  ∧ (∀ fuel context r0,
       head (bindings C T ++ [mk_retriever sid]) = Some r0 →
       get tt (S fuel) c T context h'
       = getInstance tt (get tt fuel) (storage_ r0) context h').
Proof.
  intros HC Hold sid h'.
  split; [done|].
  split; [by unfold h', to, registerType; simpl; rewrite HC|].
  split; [by unfold h', to, registerType; simpl; rewrite HC|].
  split.
  { unfold h'. rewrite (to_containers c C T Impl h HC). apply length_insert. }
  split.
  { intros k K I HK. by apply to_lookup with (C := C). }
  intros fuel context r0 Hhead.
  pose proof (to_parents_older c T Impl h Hold) as Hold'. fold h' in Hold'.
  destruct (to_lookup c C T Impl h c C T HC HC) as (C' & HC' & Hp' & Hb').
  fold h' in HC'. rewrite bool_decide_eq_true_2 in Hb' by done.
  assert (c < length (containers h')) as Hlt by (by eapply lookup_lt_Some).
  assert (∃ l, findInstanceRetrievers (containers h') c (make_component_type T EmptyString)
               = Some (bindings C' T ++ l)) as [l Hfind].
  { destruct (parentContainer_ C') as [p|] eqn:Hp.
    - destruct (candidates_exist (containers h') T p Hold') as [l Hl].
      { pose proof (Hold' _ _ _ HC' Hp). lia. }
      exists l. apply findInstanceRetrievers_candidates; [done|].
      by eapply candidates_child.
    - exists []. rewrite app_nil_r.
      apply findInstanceRetrievers_candidates; [done|].
      by eapply candidates_root. }
  simpl. unfold Container_get. rewrite Hfind, Hb'.
  fold sid. destruct (bindings C T ++ [mk_retriever sid]) as [|r1 rs] eqn:E; [done|].
  simpl in Hhead. injection Hhead as ->. done.
Qed.

(** * Lifetime: what a construction returns *)

Section Construction.

Context (tt : TypeTable).
Context (getf : nat → type_info → M nat).
Context (Hgetf : ∀ k T, obeys (getf k T)).

(** A construction that returns has run the factory of its storage once
    and returns the object allocated last, which did not exist before. *)
Lemma createInstance_Return sid s c h a c' h' :
  storages h !! sid = Some s →
  createInstance tt getf sid (TImplementation s) c h = (Return a, c', h') →
  ∃ args,
    objects h' !! a = Some (mk_object (TImplementation s) args)
    ∧ length (objects h') = S a
    ∧ length (objects h) ≤ a
    ∧ factory_runs sid h' = S (factory_runs sid h).
Proof.
  intros Hs. unfold createInstance.
  rewrite ensureNoCycle_pushType. simpl.
  case_bool_decide as Hin; [intros [=]|].
  unfold factory_createInstance, invoke.
  set (f := make_component_type _ _). set (h1 := mk_heap _ _ _ _).
  unfold bind at 1.
  destruct (obeys_get_args (getf (getContainer (pushType c f)))
              (arg_order tt (ctor_args tt (TImplementation s))) (Hgetf _)
              (pushType c f) h1) as (r & h2 & -> & Hev).
  destruct r as [ptrs|e| |]; [|by simpl; intros [=]..].
  unfold make_shared. simpl. intros [= <- <- <-].
  exists (arg_order tt ptrs). simpl.
  destruct Hev as [C S O L F].
  split; [by rewrite lookup_app_r, Nat.sub_diag|].
  split; [rewrite length_app; simpl; lia|].
  split; [by apply prefix_length in O|].
  destruct (F sid s) as [_ R].
  { done. }
  { rewrite tokens_pushType. apply elem_of_app. right. by apply list_elem_of_singleton. }
  unfold factory_runs in *. simpl in *. rewrite R.
  by destruct (Nat.eq_dec sid sid).
Qed.

Lemma getInstance_transient sid s c h :
  storages h !! sid = Some s → mIsSingleton s = false →
  getInstance tt getf sid c h = createInstance tt getf sid (TImplementation s) c h.
Proof. intros Hs Hf. unfold getInstance. by rewrite Hs, Hf. Qed.

Lemma getInstance_cached sid s a c h :
  storages h !! sid = Some s → mIsSingleton s = true → mInstance s = Some a →
  getInstance tt getf sid c h = (Return a, c, h).
Proof. intros Hs Hf Ha. unfold getInstance. by rewrite Hs, Hf, Ha. Qed.

(** A transient storage returns a new object and stays as it was. *)
Lemma getInstance_transient_Return sid s c h a c' h' :
  storages h !! sid = Some s → mIsSingleton s = false →
  getInstance tt getf sid c h = (Return a, c', h') →
  storages h' !! sid = Some s
  ∧ ∃ args,
      objects h' !! a = Some (mk_object (TImplementation s) args)
      ∧ length (objects h') = S a
      ∧ length (objects h) ≤ a
      ∧ factory_runs sid h' = S (factory_runs sid h).
Proof.
  intros Hs Hf. rewrite (getInstance_transient sid s c h Hs Hf). intros E.
  split; [|by eapply createInstance_Return].
  destruct (createInstance_obeys tt getf Hgetf sid s c h Hs) as (r & h2 & E2 & _ & Hs2 & _).
  rewrite E in E2. by injection E2 as <- <- <-.
Qed.

(** An unpopulated singleton storage that returns has constructed once and
    holds the result in its cache. *)
Lemma getInstance_populate_Return sid s c h a c' h' :
  storages h !! sid = Some s → mIsSingleton s = true → mInstance s = None →
  getInstance tt getf sid c h = (Return a, c', h') →
  storages h' !! sid = Some (mk_storage (TImplementation s) true (Some a))
  ∧ ∃ args,
      objects h' !! a = Some (mk_object (TImplementation s) args)
      ∧ length (objects h') = S a
      ∧ length (objects h) ≤ a
      ∧ factory_runs sid h' = S (factory_runs sid h).
Proof.
  intros Hs Hf Hn. unfold getInstance. rewrite Hs, Hf, Hn. simpl.
  destruct (createInstance_obeys tt getf Hgetf sid s c h Hs) as (r & h2 & E2 & Hev & Hs2 & _).
  rewrite E2. destruct r as [a'|e| |]; [|by intros [=]..].
  intros [= -> <- <-].
  destruct (createInstance_Return sid s c h a c h2 Hs E2) as (args & Ho & Hl & Hle & Hr).
  unfold set_mInstance. rewrite Hs2. simpl. rewrite Hf.
  split; [apply list_lookup_insert_eq; by eapply lookup_lt_Some|].
  by exists args.
Qed.

End Construction.

(** * Lifetime of a binding across top-level calls *)

Lemma get_root_first_candidate tt fuel this I r rest h res h' :
  findInstanceRetrievers (containers h) this (make_component_type I EmptyString)
  = Some (r :: rest) →
  get_root tt fuel this I h = (Return res, h') →
  ∃ n c', fuel = S n
          ∧ getInstance tt (get tt n) (storage_ r) (root_context this) h = (Return res, c', h').
Proof.
  intros Hfind. unfold get_root, root_context.
  destruct fuel as [|n]; [by intros [=]|].
  change (get tt (S n) this I) with (Container_get tt (get tt n) this I).
  unfold Container_get, forwardInstance. rewrite Hfind.
  destruct (getInstance _ _ _ _ _) as [[res' c'] h''] eqn:E.
  intros [= -> ->]. by exists n, c'.
Qed.

(** C3: when the first candidate for an identity is a transient binding,
    two top-level calls that return one after the other each run the
    factory of that binding once and return two different objects of the
    implementation type. *)
Theorem transient_binding_returns_fresh_instances
    tt fuel1 fuel2 this I r rest s a1 a2 h h1 h2 :
  findInstanceRetrievers (containers h) this (make_component_type I EmptyString)
  = Some (r :: rest) →
  storages h !! storage_ r = Some s →
  mIsSingleton s = false →
  get_root tt fuel1 this I h = (Return a1, h1) →
  get_root tt fuel2 this I h1 = (Return a2, h2) →
  a1 ≠ a2
  ∧ factory_runs (storage_ r) h1 = S (factory_runs (storage_ r) h)
  ∧ factory_runs (storage_ r) h2 = S (factory_runs (storage_ r) h1)
  ∧ (∃ args, objects h2 !! a1 = Some (mk_object (TImplementation s) args))
  ∧ (∃ args, objects h2 !! a2 = Some (mk_object (TImplementation s) args)).
Proof.
  intros Hfind Hs Hf E1 E2.
  destruct (get_root_first_candidate _ _ _ _ _ _ _ _ _ Hfind E1) as (n1 & c1 & -> & G1).
  destruct (getInstance_transient_Return tt (get tt n1) (obeys_get tt n1)
              _ _ _ _ _ _ _ Hs Hf G1) as (Hs1 & args1 & Ho1 & Hl1 & Hle1 & Hr1).
  destruct (obeys_getInstance tt (get tt n1) (obeys_get tt n1) (storage_ r)
              (root_context this) h) as (r1 & h1' & G1' & Hev1).
  rewrite G1 in G1'. injection G1' as <- -> <-.
  rewrite <- (ev_containers _ _ _ Hev1) in Hfind.
  destruct (get_root_first_candidate _ _ _ _ _ _ _ _ _ Hfind E2) as (n2 & c2 & -> & G2).
  destruct (getInstance_transient_Return tt (get tt n2) (obeys_get tt n2)
              _ _ _ _ _ _ _ Hs1 Hf G2) as (Hs2 & args2 & Ho2 & Hl2 & Hle2 & Hr2).
  destruct (obeys_getInstance tt (get tt n2) (obeys_get tt n2) (storage_ r)
              (root_context this) h1) as (r2 & h2' & G2' & Hev2).
  rewrite G2 in G2'. injection G2' as <- -> <-.
  split; [lia|]. split; [done|]. split; [done|].
  split; [|by exists args2].
  exists args1. eapply prefix_lookup_Some; [exact Ho1|]. apply Hev2.
Qed.

(** C2: when the first candidate for an identity is a singleton binding,
    two top-level calls that return one after the other return the same
    instance; the second call changes nothing, and over both calls the
    factory of the binding runs at most once: once when the cache was
    empty, not at all when it was filled. *)
Theorem singleton_binding_returns_same_instance
    tt fuel1 fuel2 this I r rest s a1 a2 h h1 h2 :
  findInstanceRetrievers (containers h) this (make_component_type I EmptyString)
  = Some (r :: rest) →
  storages h !! storage_ r = Some s →
  mIsSingleton s = true →
  get_root tt fuel1 this I h = (Return a1, h1) →
  get_root tt fuel2 this I h1 = (Return a2, h2) →
  a1 = a2
  ∧ h2 = h1
  ∧ factory_runs (storage_ r) h2 ≤ S (factory_runs (storage_ r) h)
  ∧ (mInstance s = None → factory_runs (storage_ r) h2 = S (factory_runs (storage_ r) h))
  ∧ (∀ a, mInstance s = Some a → a1 = a ∧ h1 = h).
Proof.
  intros Hfind Hs Hf E1 E2.
  destruct (get_root_first_candidate _ _ _ _ _ _ _ _ _ Hfind E1) as (n1 & c1 & -> & G1).
  destruct (obeys_getInstance tt (get tt n1) (obeys_get tt n1) (storage_ r)
              (root_context this) h) as (r1 & h1' & G1' & Hev1).
  rewrite G1 in G1'. injection G1' as <- -> <-.
  rewrite <- (ev_containers _ _ _ Hev1) in Hfind.
  destruct (get_root_first_candidate _ _ _ _ _ _ _ _ _ Hfind E2) as (n2 & c2 & -> & G2).
  destruct (mInstance s) as [a|] eqn:Ha.
  - rewrite (getInstance_cached tt _ _ _ _ _ _ Hs Hf Ha) in G1.
    injection G1 as <- <-.
    rewrite (getInstance_cached tt _ _ _ _ _ _ Hs Hf Ha) in G2.
    injection G2 as <- _ <-.
    split; [done|]. split; [done|]. split; [lia|]. split; [done|].
    by intros ? [= <-].
  - destruct (getInstance_populate_Return tt (get tt n1) (obeys_get tt n1)
                _ _ _ _ _ _ _ Hs Hf Ha G1) as (Hs1 & args1 & Ho1 & Hl1 & Hle1 & Hr1).
    rewrite (getInstance_cached tt _ _ _ a1 _ _ Hs1) in G2 by done.
    injection G2 as <- _ <-.
    split; [done|]. split; [done|]. split; [lia|]. split; [done|]. done.
Qed.

(** * Marking a binding singleton after it was resolved *)

Lemma InSingletonScope_storage sid s h :
  storages h !! sid = Some s →
  storages (InSingletonScope sid h) !! sid
  = Some (mk_storage (TImplementation s) true (mInstance s))
  ∧ objects (InSingletonScope sid h) = objects h
  ∧ factory_calls (InSingletonScope sid h) = factory_calls h
  ∧ containers (InSingletonScope sid h) = containers h.
Proof.
  intros Hs. unfold InSingletonScope, setSingleton. rewrite Hs. simpl.
  split; [|done]. apply list_lookup_insert_eq. by eapply lookup_lt_Some.
Qed.

(** C10: [InSingletonScope] called after a transient binding was resolved
    only sets the flag.  The instances returned before are different
    objects and none of them is in the cache; the first [getInstance] after
    the call runs the factory once more, returns an object that is none of
    the earlier ones and caches it; every later [getInstance] returns that
    object and changes nothing. *)
Theorem singleton_scope_after_resolution
    tt fuel1 fuel2 fuel3 sid s c1 c2 c3 c1' c2' c3' a1 a2 a3 h h1 h2 h3 :
  storages h !! sid = Some s →
  mIsSingleton s = false →
  mInstance s = None →
  getInstance tt (get tt fuel1) sid c1 h = (Return a1, c1', h1) →
  getInstance tt (get tt fuel2) sid c2 h1 = (Return a2, c2', h2) →
  getInstance tt (get tt fuel3) sid c3 (InSingletonScope sid h2) = (Return a3, c3', h3) →
  a1 ≠ a2
  ∧ storages h2 !! sid = Some s
  ∧ a3 ≠ a1 ∧ a3 ≠ a2
  ∧ length (objects h2) ≤ a3
  ∧ factory_runs sid h3 = S (factory_runs sid h2)
  ∧ storages h3 !! sid = Some (mk_storage (TImplementation s) true (Some a3))
  ∧ (∀ fuel c, getInstance tt (get tt fuel) sid c h3 = (Return a3, c, h3)).
Proof.
  intros Hs Hf Hn G1 G2 G3.
  destruct (getInstance_transient_Return tt (get tt fuel1) (obeys_get tt fuel1)
              _ _ _ _ _ _ _ Hs Hf G1) as (Hs1 & args1 & Ho1 & Hl1 & Hle1 & Hr1).
  destruct (getInstance_transient_Return tt (get tt fuel2) (obeys_get tt fuel2)
              _ _ _ _ _ _ _ Hs1 Hf G2) as (Hs2 & args2 & Ho2 & Hl2 & Hle2 & Hr2).
  destruct (InSingletonScope_storage sid s h2 Hs2) as (Hs2' & Hobj & Hcalls & _).
  rewrite Hn in Hs2'.
  destruct (getInstance_populate_Return tt (get tt fuel3) (obeys_get tt fuel3)
              _ _ _ _ _ _ _ Hs2' eq_refl eq_refl G3) as (Hs3 & args3 & Ho3 & Hl3 & Hle3 & Hr3).
  simpl in Hs3, Ho3. rewrite Hobj in Hle3.
  unfold factory_runs in Hr3. rewrite Hcalls in Hr3.
  split; [lia|]. split; [done|]. split; [lia|]. split; [lia|]. split; [done|].
  split; [done|]. split; [done|].
  intros fuel c. by apply getInstance_cached with (s := mk_storage (TImplementation s) true (Some a3)).
Qed.

(** * Termination: the depth of nested calls *)

Lemma list_difference_snoc_length (l k : list nat) x :
  length (list_difference l (k ++ [x])) ≤ length (list_difference l k)
  ∧ (x ∈ l → x ∉ k → length (list_difference l (k ++ [x])) < length (list_difference l k)).
Proof.
  induction l as [|y l [IH1 IH2]]; simpl.
  - split; [done|]. by intros ?%elem_of_nil.
  - destruct (decide_rel elem_of y (k ++ [x])) as [Hin|Hnin];
      destruct (decide_rel elem_of y k) as [Hin'|Hnin']; simpl.
    + split; [done|]. intros [->|Hx]%elem_of_cons Hk; [done|]. by apply IH2.
    + split; [lia|]. intros _ _. lia.
    + exfalso. apply Hnin, elem_of_app. by left.
    + split; [lia|]. intros [->|Hx]%elem_of_cons Hk.
      * exfalso. apply Hnin, elem_of_app. right. by apply list_elem_of_singleton.
      * specialize (IH2 Hx Hk). lia.
Qed.

Lemma list_difference_length (l k : list nat) : length (list_difference l k) ≤ length l.
Proof.
  induction l as [|y l IH]; simpl; [done|].
  destruct (decide_rel elem_of y k); simpl; lia.
Qed.

Lemma storage_le_impls l l' :
  Forall2 storage_le l l' → TImplementation <$> l' = TImplementation <$> l.
Proof. induction 1 as [|s s' l l' [Hi _ _ _] _ IH]; csimpl; [done|]. by rewrite Hi, IH. Qed.

Lemma evolves_impl_types c h h' : evolves c h h' → impl_types h' = impl_types h.
Proof. intros Hev. unfold impl_types. by rewrite (storage_le_impls _ _ (ev_storages _ _ _ Hev)). Qed.

Lemma evolves_wf c h h' : evolves c h h' → wf_heap h → wf_heap h'.
Proof.
  intros Hev [Hp Hst]. split.
  - by rewrite (ev_containers _ _ _ Hev).
  - intros k C T r HC Hr. rewrite (ev_containers _ _ _ Hev) in HC.
    rewrite <- (Forall2_length _ _ _ (ev_storages _ _ _ Hev)). by eapply Hst.
Qed.

Lemma remaining_pushType c f sid s h :
  storages h !! sid = Some s → typeInfo f = TImplementation s →
  TImplementation s ∉ tokens c →
  remaining (pushType c f) h < remaining c h.
Proof.
  intros Hs Hf Hnin. unfold remaining. rewrite tokens_pushType, Hf.
  apply list_difference_snoc_length; [|done].
  apply elem_of_remove_dups, list_elem_of_fmap. exists s. split; [done|].
  by eapply list_elem_of_lookup_2.
Qed.

Lemma get_args_settled getf args c h :
  (∀ T, obeys (getf T)) →
  (∀ h', evolves c h h' → ∀ T, settled (getf T c h').1.1) →
  settled (get_args getf args c h).1.1.
Proof.
  intros Hob. revert h. induction args as [|T rest IH]; intros h Hset; simpl; [done|].
  unfold bind at 1.
  destruct (Hob T c h) as (r & h1 & E & Hev1).
  pose proof (Hset h (evolves_refl c h) T) as Hr. rewrite E in *. simpl in Hr.
  destruct r as [a|e| |]; simpl; try done.
  unfold bind.
  destruct (obeys_get_args getf rest Hob c h1) as (r2 & h2 & E2 & Hev2).
  assert (settled (get_args getf rest c h1).1.1) as Hr2.
  { apply IH. intros h' Hev' T'. apply Hset. by eapply evolves_trans. }
  rewrite E2 in *. simpl in Hr2. by destruct r2.
Qed.

Section Termination.

Context (tt : TypeTable).

Lemma createInstance_settled n sid s c h :
  (∀ this T c' h', wf_heap h' → this < length (containers h') →
     container_ c' < length (containers h') → remaining c' h' < n →
     settled (get tt n this T c' h').1.1) →
  wf_heap h → container_ c < length (containers h) →
  storages h !! sid = Some s → remaining c h ≤ n →
  settled (createInstance tt (get tt n) sid (TImplementation s) c h).1.1.
Proof.
  intros IH Hwf Hc Hs Hrem. unfold createInstance.
  rewrite ensureNoCycle_pushType. simpl.
  case_bool_decide as Hin; [done|].
  unfold factory_createInstance, invoke.
  set (f := make_component_type _ _). set (h1 := mk_heap _ _ _ _).
  assert (settled
            (get_args (get tt n (getContainer (pushType c f)))
               (arg_order tt (ctor_args tt (TImplementation s))) (pushType c f) h1).1.1) as Hargs.
  { apply get_args_settled; [intros T; apply obeys_get|].
    intros h' Hev T.
    assert (wf_heap h1) as Hwf1 by (by destruct Hwf).
    apply IH.
    - by eapply evolves_wf.
    - by rewrite (ev_containers _ _ _ Hev).
    - by rewrite (ev_containers _ _ _ Hev).
    - unfold remaining. rewrite (evolves_impl_types _ _ _ Hev).
      pose proof (remaining_pushType c f sid s h Hs eq_refl Hin) as Hlt.
      unfold remaining in Hlt, Hrem. unfold impl_types in *. simpl. lia. }
  unfold bind.
  destruct (get_args _ _ _ _) as [[r c2] h2]. simpl in Hargs.
  by destruct r.
Qed.

Lemma get_settled fuel :
  ∀ this T c h,
    wf_heap h → this < length (containers h) →
    container_ c < length (containers h) → remaining c h < fuel →
    settled (get tt fuel this T c h).1.1.
Proof.
  induction fuel as [|n IH]; intros this T c h Hwf Hthis Hc Hrem; [lia|].
  change (get tt (S n) this T) with (Container_get tt (get tt n) this T).
  unfold Container_get, forwardInstance, make_component_type.
  destruct (candidates_exist (containers h) T this (wf_parents h Hwf) Hthis) as [l Hl].
  rewrite (findInstanceRetrievers_candidates _ _ _ _ EmptyString (wf_parents h Hwf) Hl).
  destruct l as [|r rest]; [done|].
  destruct (candidates_elem _ _ _ _ r Hl) as (k & C & _ & HC & Hr); [by left|].
  pose proof (wf_storages h Hwf k C T r HC Hr) as Hlt.
  destruct (lookup_lt_is_Some_2 _ _ Hlt) as [s Hs].
  pose proof (createInstance_settled n (storage_ r) s c h IH Hwf Hc Hs) as Hcreate.
  unfold getInstance. rewrite Hs.
  destruct (mIsSingleton s); simpl.
  - destruct (mInstance s); [done|].
    destruct (createInstance _ _ _ _ _ _) as [[r' c'] h'].
    simpl in Hcreate. destruct r'; simpl; apply Hcreate; lia.
  - apply Hcreate. lia.
Qed.

(** Whatever the bindings and however deep the containers nest, a
    top-level call ends once the fuel exceeds the number of distinct
    implementation types. *)
Lemma get_root_settled fuel this T h :
  wf_heap h → this < length (containers h) →
  length (impl_types h) < fuel →
  settled (get_root tt fuel this T h).1.
Proof.
  intros Hwf Hthis Hfuel. unfold get_root.
  pose proof (get_settled fuel this T (root_context this) h Hwf Hthis Hthis) as Hs.
  unfold root_context in Hs.
  destruct (get tt fuel this T _ h) as [[r c'] h']. simpl in *. apply Hs.
  unfold remaining. pose proof (list_difference_length (impl_types h)
    (tokens (InjectionContext_new this
               (make_component_type depInject_unspecified_component "Unspecified")))). lia.
Qed.

End Termination.

(** ** More fuel does not change a call that ended *)

Lemma refines_bind {A B} (m1 m2 : M A) (f1 f2 : A → M B) :
  refines m1 m2 → (∀ a, refines (f1 a) (f2 a)) → refines (bind m1 f1) (bind m2 f2).
Proof.
  intros Hm Hf c h r c' h'. unfold bind.
  destruct (m1 c h) as [[r1 c1] h1] eqn:E1.
  destruct r1 as [a|e| |]; intros E Hset.
  - rewrite (Hm c h (Return a) c1 h1 E1 I). by apply Hf.
  - rewrite (Hm c h (Throw e) c1 h1 E1 I). done.
  - injection E as <- <- <-. done.
  - injection E as <- <- <-. done.
Qed.

Lemma refines_refl {A} (m : M A) : refines m m.
Proof. by intros c h r c' h' E _. Qed.

Lemma refines_get_args getf1 getf2 args :
  (∀ T, refines (getf1 T) (getf2 T)) →
  refines (get_args getf1 args) (get_args getf2 args).
Proof.
  intros Hg. induction args as [|T rest IH]; simpl; [apply refines_refl|].
  apply refines_bind; [apply Hg|]. intros a.
  apply refines_bind; [apply IH|]. intros others. apply refines_refl.
Qed.

Section Fuel.

Context (tt : TypeTable).
Context (getf1 getf2 : nat → type_info → M nat).
Context (Hrefines : ∀ k T, refines (getf1 k T) (getf2 k T)).

Lemma refines_createInstance sid T :
  refines (createInstance tt getf1 sid T) (createInstance tt getf2 sid T).
Proof.
  intros c h r c' h'. unfold createInstance.
  destruct (ensureNoCycle _) as [e|]; [done|].
  unfold factory_createInstance, invoke.
  set (c1 := pushType c _). set (h1 := mk_heap _ _ _ _).
  pose proof (refines_bind
                (get_args (getf1 (getContainer c1)) (arg_order tt (ctor_args tt T)))
                (get_args (getf2 (getContainer c1)) (arg_order tt (ctor_args tt T)))
                (λ ptrs, make_shared T (arg_order tt ptrs))
                (λ ptrs, make_shared T (arg_order tt ptrs))
                (refines_get_args _ _ _ (Hrefines _))
                (λ _, refines_refl _) c1 h1) as Hb.
  destruct (bind (get_args (getf1 _) _) _ c1 h1) as [[r1 c2] h2] eqn:E1.
  intros [= <- <- <-] Hset.
  by rewrite (Hb r1 c2 h2 eq_refl Hset).
Qed.

Lemma refines_getInstance sid :
  refines (getInstance tt getf1 sid) (getInstance tt getf2 sid).
Proof.
  intros c h r c' h'. unfold getInstance.
  destruct (storages h !! sid) as [s|]; [|done].
  pose proof (refines_createInstance sid (TImplementation s) c h) as Hc.
  destruct (mIsSingleton s); simpl; [|apply Hc].
  destruct (mInstance s); [done|].
  destruct (createInstance tt getf1 sid (TImplementation s) c h) as [[r1 c1] h1] eqn:E1.
  intros E Hset.
  assert (settled r1) as Hset1.
  { destruct r1; by injection E as <- <- <-. }
  by rewrite (Hc r1 c1 h1 eq_refl Hset1).
Qed.

Lemma refines_Container_get this T :
  refines (Container_get tt getf1 this T) (Container_get tt getf2 this T).
Proof.
  intros c h r c' h'. unfold Container_get, forwardInstance.
  destruct (findInstanceRetrievers _ _ _) as [[|r0 rest]|]; [done| |done].
  apply refines_getInstance.
Qed.

End Fuel.

Lemma get_fuel_S tt n : ∀ this T, refines (get tt n this T) (get tt (S n) this T).
Proof.
  induction n as [|n IH]; intros this T.
  - intros c h r c' h' [= <- <- <-]. done.
  - change (refines (Container_get tt (get tt n) this T)
                    (Container_get tt (get tt (S n)) this T)).
    by apply refines_Container_get.
Qed.

Lemma get_fuel_le tt n m this T : n ≤ m → refines (get tt n this T) (get tt m this T).
Proof.
  induction 1 as [|m Hle IH]; [apply refines_refl|].
  intros c h r c' h' E Hset. apply get_fuel_S; [|done]. by apply IH.
Qed.

(** Above the bound, the result of a top-level call does not depend on
    the fuel. *)
Lemma get_root_fuel_irrelevant tt fuel1 fuel2 this T h :
  wf_heap h → this < length (containers h) →
  length (impl_types h) < fuel1 → fuel1 ≤ fuel2 →
  get_root tt fuel2 this T h = get_root tt fuel1 this T h.
Proof.
  intros Hwf Hthis Hfuel Hle.
  pose proof (get_root_settled tt fuel1 this T h Hwf Hthis Hfuel) as Hset.
  unfold get_root in *.
  destruct (get tt fuel1 this T _ h) as [[r c'] h'] eqn:E.
  by rewrite (get_fuel_le tt fuel1 fuel2 this T Hle _ _ _ _ _ E Hset).
Qed.

(** * Cycles *)

Section Cycles.

Context (tt : TypeTable).

Lemma createInstance_hit getf sid T c h :
  T ∈ tokens c →
  createInstance tt getf sid T c h = (Throw (cycle_error tt T), c, h).
Proof.
  intros Hin. unfold createInstance. rewrite ensureNoCycle_pushType. simpl.
  rewrite bool_decide_eq_true_2 by done. by rewrite popType_pushType.
Qed.

Lemma createInstance_descend getf sid T D c h e h2 :
  T ∉ tokens c →
  first_dependency tt T = Some D →
  getf (container_ c) D
       (pushType c (make_component_type T (type_name tt T)))
       (mk_heap (containers h) (storages h) (objects h) (sid :: factory_calls h))
  = (Throw e, pushType c (make_component_type T (type_name tt T)), h2) →
  createInstance tt getf sid T c h = (Throw e, c, h2).
Proof.
  intros Hnin Hdep Hget. unfold createInstance.
  rewrite ensureNoCycle_pushType. simpl.
  rewrite bool_decide_eq_false_2 by done.
  unfold factory_createInstance, invoke, first_dependency in *.
  destruct (arg_order tt (ctor_args tt T)) as [|D' rest]; [done|].
  simpl in Hdep. injection Hdep as ->.
  simpl. unfold bind at 1. unfold bind at 1. unfold getContainer. simpl.
  rewrite Hget. by rewrite popType_pushType.
Qed.

(** [get] hands on whatever the construction it starts throws. *)
Lemma get_constructs_Throw h0 k I T n c h e (P : Heap → Prop) :
  constructs h0 k I = Some T → same_state h0 h →
  (∀ sid, ∃ h', createInstance tt (get tt n) sid T c h = (Throw e, c, h') ∧ P h') →
  ∃ h', get tt (S n) k I c h = (Throw e, c, h') ∧ P h'.
Proof.
  intros Hcons (HC & HS & _) Hcreate. unfold constructs in Hcons.
  change (get tt (S n) k I) with (Container_get tt (get tt n) k I).
  unfold Container_get, forwardInstance, getInstance. rewrite HC, HS.
  destruct (findInstanceRetrievers _ _ _) as [[|r rest]|]; try done.
  destruct (storages h0 !! storage_ r) as [s|]; [|done].
  destruct (uncached s) eqn:Hun; [|done]. injection Hcons as <-.
  destruct (Hcreate (storage_ r)) as (h' & -> & HP).
  exists h'. split; [|done]. unfold uncached in Hun.
  destruct (mIsSingleton s); simpl in *; [|done].
  apply bool_decide_eq_true in Hun. by rewrite Hun.
Qed.

Lemma same_state_logged h0 h sid :
  same_state h0 h →
  same_state h0 (mk_heap (containers h) (storages h) (objects h) (sid :: factory_calls h)).
Proof. intros (? & ? & ?). by split. Qed.

Lemma leads_to_Throw k h0 Tend path :
  ∀ T I c h fuel,
    same_state h0 h → container_ c = k →
    constructs h0 k I = Some T →
    leads_to tt h0 k T path Tend →
    NoDup (T :: path) →
    (∀ x, x ∈ T :: path → x ∉ tokens c) →
    Tend ∈ tokens c ++ T :: path →
    length path + 2 ≤ fuel →
    ∃ h', get tt fuel k I c h = (Throw (cycle_error tt Tend), c, h') ∧ same_state h0 h'.
Proof.
  induction path as [|T' rest IH]; intros T I c h fuel Hsame Hk Hcons Hlead Hnd Hout Hend Hfuel;
    (destruct fuel as [|n]; [simpl in Hfuel; lia|]);
    (eapply get_constructs_Throw; [exact Hcons|exact Hsame|]); intros sid;
    set (f := make_component_type T (type_name tt T));
    set (h1 := mk_heap (containers h) (storages h) (objects h) (sid :: factory_calls h));
    assert (∃ D, first_dependency tt T = Some D
                 ∧ ∃ h', get tt n k D (pushType c f) h1
                         = (Throw (cycle_error tt Tend), pushType c f, h')
                       ∧ same_state h0 h') as (D & HD & h' & Hget & Hsame').
  - simpl in Hlead. unfold next_impl in Hlead.
    destruct (first_dependency tt T) as [D|] eqn:HD; [|done].
    exists D. split; [done|].
    destruct n as [|m]; [simpl in Hfuel; lia|].
    eapply get_constructs_Throw; [exact Hlead|by apply same_state_logged|].
    intros sid'. exists h1. split; [|by apply same_state_logged].
    apply createInstance_hit. by rewrite tokens_pushType.
  - exists h'. split; [|done].
    apply createInstance_descend with (D := D); [apply Hout; by left|done|].
    by rewrite Hk.
  - simpl in Hlead. destruct Hlead as [Hnext Hlead]. unfold next_impl in Hnext.
    destruct (first_dependency tt T) as [D|] eqn:HD; [|done].
    exists D. split; [done|].
    apply NoDup_cons in Hnd as [HT Hnd].
    apply (IH T' D (pushType c f) h1 n).
    + by apply same_state_logged.
    + done.
    + done.
    + done.
    + done.
    + intros x Hx. rewrite tokens_pushType. simpl.
      intros [Hc|Heq]%elem_of_app.
      * revert Hc. apply Hout. by right.
      * apply list_elem_of_singleton in Heq as ->. done.
    + rewrite tokens_pushType. simpl. by rewrite <- app_assoc.
    + simpl in Hfuel. lia.
  - exists h'. split; [|done].
    apply createInstance_descend with (D := D); [apply Hout; by left|done|].
    by rewrite Hk.
Qed.

End Cycles.

Lemma constructs_impl_type h k I T : constructs h k I = Some T → T ∈ impl_types h.
Proof.
  unfold constructs.
  destruct (findInstanceRetrievers _ _ _) as [[|r ?]|]; try done.
  destruct (storages h !! storage_ r) as [s|] eqn:Hs; [|done].
  destruct (uncached s); [|done]. intros [= <-].
  apply elem_of_remove_dups, list_elem_of_fmap. exists s. split; [done|].
  by eapply list_elem_of_lookup_2.
Qed.

Lemma leads_to_impl_types tt h k path :
  ∀ T Tend, leads_to tt h k T path Tend → ∀ x, x ∈ path → x ∈ impl_types h.
Proof.
  induction path as [|T' rest IH]; intros T Tend Hlead x Hx.
  - by apply elem_of_nil in Hx.
  - simpl in Hlead. destruct Hlead as [Hnext Hlead].
    apply elem_of_cons in Hx as [->|Hx]; [|by eapply IH].
    unfold next_impl in Hnext. destruct (first_dependency tt T); [|done].
    by eapply constructs_impl_type.
Qed.

(** ** Constructions that cannot end well *)

Lemma get_args_Throw_elem getf args :
  (∀ T, obeys (getf T)) →
  ∀ c h e c' h',
    get_args getf args c h = (Throw e, c', h') →
    ∃ D h2, D ∈ args ∧ evolves c h h2 ∧ getf D c h2 = (Throw e, c', h').
Proof.
  intros Hob. induction args as [|T rest IH]; intros c h e c' h'; simpl; [by intros [=]|].
  unfold bind at 1.
  destruct (Hob T c h) as (r1 & h1 & E1 & Hev1). rewrite E1.
  destruct r1 as [a|e1| |]; try by intros [=].
  - unfold bind.
    destruct (get_args getf rest c h1) as [[r2 c2] h2] eqn:E2.
    destruct r2 as [others|e2| |]; try by intros [=].
    intros [= <- <- <-].
    destruct (IH c h1 e2 c2 h2 E2) as (D & h3 & HD & Hev3 & HgD).
    exists D, h3. split; [by right|]. split; [by eapply evolves_trans|done].
  - intros [= <- <- <-]. exists T, h. split; [by left|]. split; [apply evolves_refl|done].
Qed.

Lemma arg_order_elem {A} tt (l : list A) x : x ∈ arg_order tt l → x ∈ l.
Proof.
  unfold arg_order. destruct (right_to_left tt); [|done].
  rewrite !list_elem_of_In. apply in_rev.
Qed.

Lemma elem_arg_order {A} tt (l : list A) x : x ∈ l → x ∈ arg_order tt l.
Proof.
  unfold arg_order. destruct (right_to_left tt); [|done].
  rewrite !list_elem_of_In. apply in_rev.
Qed.

Lemma later_than_refl h : later_than h h.
Proof.
  split; [done|]. apply Forall2_same_length_lookup_2; [done|].
  intros i x y Hx Hy. rewrite Hx in Hy. injection Hy as <-. apply storage_le_refl.
Qed.

Lemma later_than_evolves h0 c h h' : later_than h0 h → evolves c h h' → later_than h0 h'.
Proof.
  intros [C S] Hev. split.
  - by rewrite (ev_containers _ _ _ Hev).
  - eapply Forall2_trans; [|exact S|exact (ev_storages _ _ _ Hev)].
    intros x y z. apply storage_le_trans.
Qed.

Lemma storage_le_uncached s0 s : storage_le s0 s → uncached s = true → uncached s0 = true.
Proof.
  intros [Hi Hf Hc Ht]. unfold uncached. rewrite Hf.
  destruct (mIsSingleton s0); simpl; [|done].
  rewrite !bool_decide_eq_true. intros Hn.
  destruct (mInstance s0) as [a|]; [|done]. rewrite (Hc a eq_refl) in Hn. done.
Qed.

Section Explained.

Context (tt : TypeTable) (h0 : Heap) (k : nat).

(** Every exception has a reason in the bindings as they were at the
    start. *)
Lemma explained_get n :
  ∀ this D c h e c' h',
    container_ c = k → later_than h0 h →
    get tt n this D c h = (Throw e, c', h') →
    explained tt h0 k this D (tokens c) e.
Proof.
  induction n as [|m IH]; intros this D c h e c' h' Hk Hlater; [by intros [=]|].
  change (get tt (S m) this D) with (Container_get tt (get tt m) this D).
  unfold Container_get, forwardInstance.
  rewrite (lt_containers _ _ Hlater).
  destruct (findInstanceRetrievers _ _ _) as [[|r rest]|] eqn:Hfind; try by intros [=].
  { intros [= <- <- <-]. left. exists D. split; [done|]. by left. }
  unfold getInstance.
  destruct (storages h !! storage_ r) as [s|] eqn:Hs; [|by intros [=]].
  destruct (Forall2_lookup_r _ _ _ _ _ (lt_storages _ _ Hlater) Hs) as (s0 & Hs0 & Hle).
  assert (uncached s = true →
          ∀ c1 h1, createInstance tt (get tt m) (storage_ r) (TImplementation s) c h
                   = (Throw e, c1, h1) →
                   explained tt h0 k this D (tokens c) e) as Hcreate.
  { intros Hun c1 h1.
    assert (constructs h0 this D = Some (TImplementation s)) as Hcons.
    { unfold constructs. rewrite Hfind, Hs0, (storage_le_uncached _ _ Hle Hun).
      by rewrite (sle_impl _ _ Hle). }
    unfold createInstance. rewrite ensureNoCycle_pushType. simpl.
    case_bool_decide as Hin.
    - intros [= <- <- <-]. right. exists (TImplementation s), (TImplementation s).
      split; [done|]. split; [apply rtc_refl|]. split; [done|]. by left.
    - unfold factory_createInstance, invoke.
      set (c0 := pushType c _). set (hl := mk_heap _ _ _ _).
      unfold bind at 1.
      destruct (get_args _ _ c0 hl) as [[r1 c2] h2] eqn:E1.
      destruct r1 as [ptrs|e1| |]; try by intros [=].
      intros [= <- <- <-].
      destruct (get_args_Throw_elem (get tt m (getContainer c0)) _
                  (λ T, obeys_get tt m _ T) c0 hl e1 c2 h2 E1) as (D2 & h3 & HD2 & Hev & HgD).
      apply arg_order_elem in HD2.
      assert (later_than h0 h3) as Hlater3.
      { eapply later_than_evolves; [|exact Hev]. by destruct Hlater. }
      assert (getContainer c0 = k) as Hk0 by done.
      rewrite Hk0 in HgD.
      destruct (IH k D2 c0 h3 e1 c2 h2 Hk Hlater3 HgD)
        as [(X & -> & [[-> HX]|HX])|(T2 & T' & Hc2 & Hrtc & -> & Hwhere)].
      + left. exists D2. split; [done|]. right.
        exists (storage_ r), s0. rewrite (sle_impl _ _ Hle) in HD2. done.
      + left. exists X. split; [done|]. by right.
      + assert (edge tt h0 k (TImplementation s) T2) as Hedge by (by exists D2).
        right. exists (TImplementation s), T'.
        split; [done|]. split; [by eapply rtc_l|]. split; [done|].
        destruct Hwhere as [Hin'|Htc]; [|by right].
        unfold c0 in Hin'. rewrite tokens_pushType in Hin'. simpl in Hin'.
        apply elem_of_app in Hin' as [Hin'|Heq]; [by left|].
        apply list_elem_of_singleton in Heq as ->. right.
        eapply tc_rtc_r; [by apply tc_once|done]. }
  destruct (mIsSingleton s) eqn:Hf; simpl.
  - destruct (mInstance s) eqn:Ha; [by intros [=]|].
    destruct (createInstance _ _ _ _ _ _) as [[r1 c1] h1] eqn:E1.
    destruct r1; try by intros [=].
    intros [= <- <- <-]. eapply Hcreate; [|done].
    unfold uncached. by rewrite Hf, Ha.
  - apply Hcreate. unfold uncached. by rewrite Hf.
Qed.

End Explained.

Section Doomed.

Context (tt : TypeTable) (h0 : Heap) (k : nat) (Bad : nat → Prop).
Context (Hclosed : ∀ T, Bad T → ∃ D T', D ∈ ctor_args tt T ∧ constructs h0 k D = Some T' ∧ Bad T').

Lemma constructs_kept h this D T :
  keeps_uncached Bad h0 h → constructs h0 this D = Some T → Bad T → constructs h this D = Some T.
Proof.
  intros [HC HS]. unfold constructs. rewrite HC.
  destruct (findInstanceRetrievers _ _ _) as [[|r rest]|]; try done.
  destruct (storages h0 !! storage_ r) as [s0|] eqn:Hs0; [|done].
  destruct (uncached s0) eqn:Hun; [|done]. intros [= <-] HT.
  destruct (HS _ s0 Hs0 HT Hun) as (s & -> & -> & ->). done.
Qed.

Lemma keeps_uncached_logged sid h :
  keeps_uncached Bad h0 h →
  keeps_uncached Bad h0 (mk_heap (containers h) (storages h) (objects h) (sid :: factory_calls h)).
Proof. intros [HC HS]. by split. Qed.

Lemma doomed_get_args getf args :
  (∀ D c h r c' h', container_ c = k → keeps_uncached Bad h0 h →
     getf D c h = (r, c', h') →
     c' = c ∧ keeps_uncached Bad h0 h'
     ∧ ∀ T, constructs h k D = Some T → Bad T → ∀ a, r ≠ Return a) →
  ∀ c h r c' h', container_ c = k → keeps_uncached Bad h0 h →
    get_args getf args c h = (r, c', h') →
    keeps_uncached Bad h0 h'
    ∧ ∀ D T, D ∈ args → constructs h0 k D = Some T → Bad T → ∀ ptrs, r ≠ Return ptrs.
Proof.
  intros Hg. induction args as [|D1 rest IH]; intros c h r c' h' Hk Hkeep; simpl.
  - intros [= <- <- <-]. split; [done|]. by intros D T ?%elem_of_nil.
  - unfold bind at 1.
    destruct (getf D1 c h) as [[r1 c1] h1] eqn:E1.
    destruct (Hg D1 c h r1 c1 h1 Hk Hkeep E1) as (-> & Hkeep1 & Hr1).
    destruct r1 as [a|e| |]; try (intros [= <- <- <-]; by split).
    unfold bind.
    destruct (get_args getf rest c h1) as [[r2 c2] h2] eqn:E2.
    destruct (IH c h1 r2 c2 h2 Hk Hkeep1 E2) as [Hkeep2 Hr2].
    destruct r2 as [others|e| |]; try (intros [= <- <- <-]; by split).
    intros [= <- <- <-]. split; [done|].
    intros D T [->|HD]%elem_of_cons Hc HT ptrs _.
    + by apply (Hr1 T (constructs_kept h k D1 T Hkeep Hc HT) HT a).
    + by apply (Hr2 D T HD Hc HT others).
Qed.

Lemma doomed_get n :
  ∀ this D c h r c' h',
    container_ c = k → keeps_uncached Bad h0 h →
    get tt n this D c h = (r, c', h') →
    c' = c ∧ keeps_uncached Bad h0 h'
    ∧ ∀ T, constructs h this D = Some T → Bad T → ∀ a, r ≠ Return a.
Proof.
  induction n as [|m IH]; intros this D c h r c' h' Hk Hkeep.
  { intros [= <- <- <-]. by split. }
  change (get tt (S m) this D) with (Container_get tt (get tt m) this D).
  unfold Container_get, forwardInstance, constructs.
  destruct (findInstanceRetrievers _ _ _) as [[|r0 rest]|];
    try (intros [= <- <- <-]; by split).
  unfold getInstance.
  destruct (storages h !! storage_ r0) as [s|] eqn:Hs;
    [|intros [= <- <- <-]; by split].
  assert (∀ r1 c1 h1,
            createInstance tt (get tt m) (storage_ r0) (TImplementation s) c h = (r1, c1, h1) →
            c1 = c ∧ keeps_uncached Bad h0 h1 ∧ storages h1 !! storage_ r0 = Some s
            ∧ (Bad (TImplementation s) → ∀ a, r1 ≠ Return a)) as Hcreate.
  { intros r1 c1 h1 E.
    destruct (createInstance_obeys tt (get tt m) (obeys_get tt m) _ s c h Hs)
      as (r2 & h2 & E2 & _ & Hs2 & _).
    rewrite E in E2. injection E2 as Hr2 Hc2 Hh2. subst r2 c1 h2.
    split; [done|]. revert E. unfold createInstance. cbv zeta.
    rewrite ensureNoCycle_pushType.
    case_bool_decide as Hin.
    { rewrite popType_pushType. intros [=]; subst. by split. }
    unfold factory_createInstance, invoke.
    set (c0 := pushType c _). set (hl := mk_heap _ _ _ _).
    change (getContainer c0) with (container_ c). rewrite Hk.
    unfold bind at 1.
    destruct (get_args _ _ c0 hl) as [[r3 c3] h3] eqn:E3.
    destruct (doomed_get_args (get tt m k) _ (λ D1, IH k D1) c0 hl r3 c3 h3 Hk
                (keeps_uncached_logged _ h Hkeep) E3) as [Hkeep3 Hr3].
    destruct r3 as [ptrs|e| |]; try (intros [=]; subst; by split).
    unfold make_shared. intros [=]; subst. split; [|split; [done|]].
    - destruct Hkeep3 as [HC3 HS3]. by split.
    - intros HT a _.
      destruct (Hclosed _ HT) as (D1 & T1 & HD1 & Hc1 & HT1).
      by apply (Hr3 D1 T1 (elem_arg_order tt _ _ HD1) Hc1 HT1 ptrs). }
  destruct (mIsSingleton s) eqn:Hf; simpl.
  - destruct (mInstance s) as [a0|] eqn:Ha.
    { intros [= <- <- <-]. split; [done|]. split; [done|].
      intros T. unfold uncached. rewrite Hf, Ha. simpl. by intros [=]. }
    destruct (createInstance _ _ _ _ _ _) as [[r1 c1] h1] eqn:E1.
    destruct (Hcreate r1 c1 h1 eq_refl) as (-> & Hkeep1 & Hs1 & Hr1).
    destruct r1 as [a|e| |].
    + intros [= <- <- <-]. split; [done|].
      assert (¬ Bad (TImplementation s)) as HnS.
      { intros HT. by apply (Hr1 HT a). }
      split.
      * destruct Hkeep1 as [HC1 HS1]. unfold set_mInstance. rewrite Hs1.
        split; simpl; [done|].
        intros sid s0 Hs0 HT0 Hun0.
        destruct (HS1 sid s0 Hs0 HT0 Hun0) as (s' & Hs' & Hi' & Hun').
        destruct (decide (sid = storage_ r0)) as [->|Hne].
        -- rewrite Hs1 in Hs'. injection Hs' as <-. rewrite Hi' in HnS. done.
        -- exists s'. by rewrite list_lookup_insert_ne.
      * intros T. destruct (uncached s); [|by intros [=]].
        intros [= <-] HT. done.
    + intros [= <- <- <-]. by split.
    + intros [= <- <- <-]. by split.
    + intros [= <- <- <-]. by split.
  - intros E. destruct (Hcreate r c' h' E) as (-> & Hkeep1 & Hs1 & Hr1).
    split; [done|]. split; [done|].
    intros T. destruct (uncached s); [|by intros [=]].
    intros [= <-]. done.
Qed.

End Doomed.

Lemma reaches_cycle_closed tt h k T :
  reaches_cycle tt h k T →
  ∃ D T', D ∈ ctor_args tt T ∧ constructs h k D = Some T' ∧ reaches_cycle tt h k T'.
Proof.
  intros (Tc & Hrtc & Htc). destruct Hrtc as [T|T T1 Tc [D [HD Hc]] Hrtc].
  - pose proof Htc as Hcyc.
    inversion Htc as [? ? [D [HD Hc]]|? T1 ? [D [HD Hc]] Hrest]; subst.
    + exists D, T. split; [done|]. split; [done|]. exists T. split; [apply rtc_refl|done].
    + exists D, T1. split; [done|]. split; [done|]. exists T.
      split; [by apply tc_rtc|done].
  - exists D, T1. split; [done|]. split; [done|]. by exists Tc.
Qed.

Lemma keeps_uncached_refl S h : keeps_uncached S h h.
Proof. split; [done|]. intros sid s0 Hs0 _ Hun. by exists s0. Qed.

Lemma rtc_edge_impl_type tt h k T T' :
  rtc (edge tt h k) T T' → T ∈ impl_types h → T' ∈ impl_types h.
Proof.
  induction 1 as [|T T1 T' [D [_ Hc]] _ IH]; [done|].
  intros _. apply IH. by eapply constructs_impl_type.
Qed.


(** ** Heaps built through the interface are well formed *)

Lemma wf_empty_heap : wf_heap empty_heap.
Proof.
  split.
  - intros i C p HC. simpl in HC. by rewrite lookup_nil in HC.
  - intros k C T r HC. simpl in HC. by rewrite lookup_nil in HC.
Qed.

Lemma Container_new_wf parent h :
  wf_heap h →
  (∀ p, parent = Some p → p < length (containers h)) →
  wf_heap (Container_new parent h).2.
Proof.
  intros [Hp Hs] Hparent. split; simpl.
  - intros i C p HC HpC.
    apply lookup_app_Some in HC as [HC|[Hi HC]]; [by eapply Hp|].
    apply list_lookup_singleton_Some in HC as [Hi' <-]. simpl in HpC.
    specialize (Hparent p HpC). lia.
  - intros k C T r HC Hr.
    apply lookup_app_Some in HC as [HC|[Hi HC]]; [by eapply Hs|].
    apply list_lookup_singleton_Some in HC as [Hi' <-].
    unfold bindings in Hr. simpl in Hr. rewrite lookup_empty in Hr.
    by apply elem_of_nil in Hr.
Qed.

Lemma to_wf c T Impl h : wf_heap h → wf_heap (to c T Impl h).2.
Proof.
  intros [Hp Hs]. split; [by apply to_parents_older|].
  destruct (containers h !! c) as [C|] eqn:HC.
  - assert (length (storages (to c T Impl h).2) = S (length (storages h))) as Hlen.
    { unfold to, registerType. simpl. rewrite HC. simpl. rewrite length_app. simpl. lia. }
    intros k K' I r HK' Hr. rewrite Hlen.
    assert (k < length (containers h)) as Hk.
    { apply lookup_lt_Some in HK'. rewrite (to_containers c C T Impl h HC) in HK'.
      by rewrite length_insert in HK'. }
    destruct (lookup_lt_is_Some_2 _ _ Hk) as [K HK].
    destruct (to_lookup c C T Impl h k K I HC HK) as (K2 & HK2 & _ & Hb).
    rewrite HK' in HK2. injection HK2 as <-. rewrite Hb in Hr.
    apply elem_of_app in Hr as [Hr|Hr].
    + specialize (Hs k K I r HK Hr). lia.
    + case_bool_decide; [|by apply elem_of_nil in Hr].
      apply list_elem_of_singleton in Hr as ->. simpl. lia.
  - unfold to, registerType. simpl. rewrite HC. simpl.
    intros k K I r HK Hr. rewrite length_app. simpl.
    specialize (Hs k K I r HK Hr). lia.
Qed.

Lemma InSingletonScope_wf sid h : wf_heap h → wf_heap (InSingletonScope sid h).
Proof.
  intros [Hp Hs]. unfold InSingletonScope, setSingleton.
  destruct (storages h !! sid) as [s|]; [|done].
  split; simpl; [done|].
  intros k C T r HC Hr. rewrite length_insert. by eapply Hs.
Qed.

(** * Which container resolves the dependencies *)

Section Context_container.

Context (tt : TypeTable).

Lemma get_transient_candidate n this T r rest s c h :
  findInstanceRetrievers (containers h) this (make_component_type T EmptyString)
  = Some (r :: rest) →
  storages h !! storage_ r = Some s → mIsSingleton s = false →
  get tt (S n) this T c h
  = createInstance tt (get tt n) (storage_ r) (TImplementation s) c h.
Proof.
  intros Hfind Hs Hf.
  change (get tt (S n) this T) with (Container_get tt (get tt n) this T).
  unfold Container_get, forwardInstance. rewrite Hfind.
  by apply getInstance_transient.
Qed.

Lemma createInstance_pass getf sid T c h :
  T ∉ tokens c →
  createInstance tt getf sid T c h
  = (let '(r, c2, h2) :=
       invoke tt getf T (pushType c (make_component_type T (type_name tt T))) (logged sid h)
     in (r, popType c2, h2)).
Proof.
  intros Hnin. unfold createInstance. rewrite ensureNoCycle_pushType. simpl.
  by rewrite bool_decide_eq_false_2.
Qed.

Lemma invoke_no_args getf T c h :
  ctor_args tt T = [] →
  invoke tt getf T c h = (Return (length (objects h)), c, allocated T [] h).
Proof.
  intros Hargs. unfold invoke, arg_order. rewrite Hargs.
  by destruct (right_to_left tt).
Qed.

(** The one dependency is asked from the container of the context. *)
Lemma invoke_one_arg getf T D c h b h2 :
  ctor_args tt T = [D] →
  getf (container_ c) D c h = (Return b, c, h2) →
  invoke tt getf T c h = (Return (length (objects h2)), c, allocated T [b] h2).
Proof.
  intros Hargs Hget. unfold invoke, arg_order, getContainer. rewrite Hargs.
  assert ((if right_to_left tt then rev [D] else [D]) = [D]) as -> by by destruct (right_to_left tt).
  simpl. unfold bind at 1. unfold bind at 1. rewrite Hget. simpl.
  unfold bind, ret, make_shared. simpl.
  by destruct (right_to_left tt).
Qed.

(** A child that takes [A] from its parent chain and binds [B] itself
    gets an [A] whose [B] was made by the child's binding, whatever the
    parent chain binds for [B]: the heap after the call, in full, for a
    constructor with one parameter. *)
Theorem dependencies_resolved_by_requesting_container
    fuel child C parent A B rA restA sA rB restB sB inheritedB h :
  parents_older (containers h) →
  containers h !! child = Some C →
  parentContainer_ C = Some parent →
  bindings C A = [] →
  candidates (containers h) A parent (rA :: restA) →
  storages h !! storage_ rA = Some sA →
  mIsSingleton sA = false →
  ctor_args tt (TImplementation sA) = [B] →
  bindings C B = rB :: restB →
  candidates (containers h) B parent inheritedB →
  storages h !! storage_ rB = Some sB →
  mIsSingleton sB = false →
  ctor_args tt (TImplementation sB) = [] →
  TImplementation sA ≠ depInject_unspecified_component →
  TImplementation sB ≠ depInject_unspecified_component →
  TImplementation sA ≠ TImplementation sB →
  let b := length (objects h) in
  get_root tt (S (S fuel)) child A h
  = (Return (S b),
     allocated (TImplementation sA) [b]
       (allocated (TImplementation sB) []
          (logged (storage_ rB) (logged (storage_ rA) h))))
  ∧ get tt (S (S fuel)) parent A (root_context child) h
    = get tt (S (S fuel)) child A (root_context child) h.
Proof.
  intros Hold HC Hp HbA HcA HsA HfA HargsA HbB HcB HsB HfB HargsB HA0 HB0 HAB b.
  split; [|
    rewrite (get_transient_candidate (S fuel) parent A rA restA sA _ h
               (findInstanceRetrievers_candidates _ _ _ _ EmptyString Hold HcA) HsA HfA);
    symmetry; apply get_transient_candidate with (rest := restA); [|done|done];
    apply findInstanceRetrievers_candidates; [done|];
    change (rA :: restA) with ([] ++ rA :: restA); rewrite <- HbA;
    by eapply candidates_child ].
  assert (findInstanceRetrievers (containers h) child (make_component_type A EmptyString)
          = Some (rA :: restA)) as HfindA.
  { apply findInstanceRetrievers_candidates; [done|].
    change (rA :: restA) with ([] ++ rA :: restA). rewrite <- HbA.
    by eapply candidates_child. }
  assert (findInstanceRetrievers (containers h) child (make_component_type B EmptyString)
          = Some ((rB :: restB) ++ inheritedB)) as HfindB.
  { apply findInstanceRetrievers_candidates; [done|].
    rewrite <- HbB. by eapply candidates_child. }
  unfold get_root. fold (root_context child).
  rewrite (get_transient_candidate (S fuel) child A rA restA sA _ h HfindA HsA HfA).
  rewrite createInstance_pass; first last.
  { unfold root_context, InjectionContext_new, tokens. simpl.
    by intros ?%list_elem_of_singleton. }
  set (cA := pushType (root_context child) _).
  assert (get tt (S fuel) (container_ cA) B cA (logged (storage_ rA) h)
          = (Return b, cA,
             allocated (TImplementation sB) []
               (logged (storage_ rB) (logged (storage_ rA) h)))) as HgetB.
  { change (container_ cA) with child.
    rewrite (get_transient_candidate fuel child B rB (restB ++ inheritedB) sB cA
               (logged (storage_ rA) h) HfindB HsB HfB).
    rewrite createInstance_pass; first last.
    { unfold cA. rewrite tokens_pushType.
      unfold root_context, InjectionContext_new, tokens. simpl.
      intros [?|[?|?%elem_of_nil]%elem_of_cons]%elem_of_cons; [by apply HB0|by apply HAB|done]. }
    rewrite (invoke_no_args _ _ _ _ HargsB). by rewrite popType_pushType. }
  rewrite (invoke_one_arg (get tt (S fuel)) (TImplementation sA) B cA
             (logged (storage_ rA) h) b _ HargsA HgetB).
  simpl. rewrite length_app. simpl. fold b.
  by replace (b + 1) with (S b) by lia.
Qed.

End Context_container.

Lemma wf_one_container : wf_heap one_container.
Proof. apply Container_new_wf; [apply wf_empty_heap|]. by intros p [=]. Qed.

Lemma wf_heap_cycle : wf_heap heap_cycle.
Proof. repeat apply to_wf. apply wf_one_container. Qed.

Lemma wf_heap_family : wf_heap heap_family.
Proof.
  repeat apply to_wf. apply Container_new_wf.
  - repeat apply to_wf. apply wf_one_container.
  - intros p [= <-]. vm_compute. lia.
Qed.

(** ** The scenarios of [tests.cpp] *)

Example TestSimpleResolve :
  ∃ h1 h2,
    get_root (tests_types false) 2 0 IRunner heap_runner = (Return 0, h1)
    ∧ get_root (tests_types false) 2 0 IRunner h1 = (Return 1, h2)
    ∧ objects h2 = [mk_object Cheetah []; mk_object Cheetah []].
Proof. eexists _, _. split; [by vm_compute|]. split; by vm_compute. Qed.

Example TestSimpleResolve__Singleton :
  ∃ h1 h2,
    get_root (tests_types false) 2 0 IRunner heap_runner_singleton = (Return 0, h1)
    ∧ get_root (tests_types false) 2 0 IRunner h1 = (Return 0, h2)
    ∧ objects h2 = [mk_object Cheetah []].
Proof. eexists _, _. split; [by vm_compute|]. split; by vm_compute. Qed.

Example TestNestedDependencies :
  ∃ h1 h2 h3 h4,
    get_root (tests_types false) 3 0 Spider heap_spider = (Return 1, h1)
    ∧ get_root (tests_types false) 3 0 Spider h1 = (Return 2, h2)
    ∧ get_root (tests_types false) 3 0 Spider h2 = (Return 3, h3)
    ∧ get_root (tests_types false) 3 0 INest h3 = (Return 0, h4)
    ∧ objects h4 = [mk_object SpiderNest []; mk_object Spider [0];
                    mk_object Spider [0]; mk_object Spider [0]].
Proof.
  eexists _, _, _, _. split; [by vm_compute|]. split; [by vm_compute|].
  split; [by vm_compute|]. split; by vm_compute.
Qed.

Example TestComponentNotFound :
  get_root (tests_types false) 1 0 IRunner one_container
  = (Throw (ComponentNotFoundException (make_component_type IRunner EmptyString)),
     one_container).
Proof. by vm_compute. Qed.

Example TestCircularDependency :
  (get_root (tests_types false) 4 0 Start heap_cycle).1
  = Throw (CircularDependencyFound (make_component_type Start "Start")).
Proof. by vm_compute. Qed.

(** ** The theorems at work on these heaps *)

Lemma wf_heap_service : wf_heap heap_service.
Proof. repeat apply to_wf. apply wf_one_container. Qed.


Lemma singleton_binding_witness :
  ∃ a1 a2 h1 h2,
    get_root (tests_types false) 2 0 IRunner heap_runner_singleton = (Return a1, h1)
    ∧ get_root (tests_types false) 2 0 IRunner h1 = (Return a2, h2)
    ∧ a1 = a2 ∧ h2 = h1 ∧ factory_runs 0 h2 = 1.
Proof.
  set (tt := tests_types false).
  set (h1 := (get_root tt 2 0 IRunner heap_runner_singleton).2).
  assert (get_root tt 2 0 IRunner heap_runner_singleton = (Return 0, h1)) as E1
    by (by vm_compute).
  assert (get_root tt 2 0 IRunner h1 = (Return 0, h1)) as E2 by (by vm_compute).
  destruct (singleton_binding_returns_same_instance tt 2 2 0 IRunner (mk_retriever 0) []
              (mk_storage Cheetah true None) 0 0 heap_runner_singleton h1 h1)
    as (Ha & Hh & Hle & Hnone & Hsome); try (by vm_compute).
  exists 0, 0, h1, h1.
  split; [exact E1|]. split; [exact E2|]. split; [exact Ha|]. split; [exact Hh|].
  change (storage_ (mk_retriever 0)) with 0 in Hnone.
  rewrite (Hnone eq_refl). by vm_compute.
Defined.

Lemma transient_binding_witness :
  ∃ a1 a2 h1 h2,
    get_root (tests_types false) 2 0 IRunner heap_runner = (Return a1, h1)
    ∧ get_root (tests_types false) 2 0 IRunner h1 = (Return a2, h2)
    ∧ a1 ≠ a2
    ∧ factory_runs 0 h2 = 2.
Proof.
  set (tt := tests_types false).
  set (h1 := (get_root tt 2 0 IRunner heap_runner).2).
  set (h2 := (get_root tt 2 0 IRunner h1).2).
  assert (get_root tt 2 0 IRunner heap_runner = (Return 0, h1)) as E1 by (by vm_compute).
  assert (get_root tt 2 0 IRunner h1 = (Return 1, h2)) as E2 by (by vm_compute).
  destruct (transient_binding_returns_fresh_instances tt 2 2 0 IRunner (mk_retriever 0) []
              (mk_storage Cheetah false None) 0 1 heap_runner h1 h2)
    as (Hne & Hr1 & Hr2 & _); try (by vm_compute).
  exists 0, 1, h1, h2.
  split; [exact E1|]. split; [exact E2|]. split; [exact Hne|].
  change (storage_ (mk_retriever 0)) with 0 in Hr1, Hr2.
  rewrite Hr2, Hr1. by vm_compute.
Defined.

Lemma unbound_identity_witness :
  get_root (tests_types false) 1 1 Unbound heap_family
  = (Throw (ComponentNotFoundException (make_component_type Unbound EmptyString)),
     heap_family).
Proof.
  apply (unbound_identity_not_found (tests_types false) 0 1 Unbound heap_family).
  - apply wf_heap_family.
  - vm_compute. lia.
  - intros k C Hchain HC.
    inversion Hchain as [|? C1 p ? HC1 Hp Hrest]; subst.
    + vm_compute in HC. injection HC as <-. by vm_compute.
    + vm_compute in HC1. injection HC1 as <-. vm_compute in Hp. injection Hp as <-.
      inversion Hrest as [|? C2 p2 ? HC2 Hp2 _]; subst.
      * vm_compute in HC. injection HC as <-. by vm_compute.
      * vm_compute in HC2. injection HC2 as <-. vm_compute in Hp2. discriminate.
Defined.

Lemma local_binding_witness :
  ∃ a h',
    get_root (tests_types false) 2 1 IRunner heap_family = (Return a, h')
    ∧ objects h' !! a = Some (mk_object Leopard []).
Proof.
  destruct (local_binding_shadows_parent (tests_types false) 1 1 family_child 0 IRunner
              (mk_retriever 4) [] (bindings family_parent IRunner) heap_family)
    as (Hfind & Hget & Hroot).
  - apply wf_heap_family.
  - by vm_compute.
  - by vm_compute.
  - by vm_compute.
  - apply candidates_root; by vm_compute.
  - eexists _, _. rewrite Hroot. split; by vm_compute.
Defined.

Lemma bind_to_witness :
  let h' := (to 0 IRunner Leopard heap_runner).2 in
  storages h' = [mk_storage Cheetah false None; mk_storage Leopard false None]
  ∧ (∃ K', containers h' !! 0 = Some K'
           ∧ bindings K' IRunner = [mk_retriever 0; mk_retriever 1])
  ∧ get (tests_types false) 2 0 IRunner (root_context 0) h'
    = getInstance (tests_types false) (get (tests_types false) 1) 0 (root_context 0) h'.
Proof.
  intros h'.
  destruct (bind_to_is_additive (tests_types false) 0 runner_container IRunner Leopard
              heap_runner)
    as (Hsid & Hst & Hobj & Hlen & Hold & Hget).
  - by vm_compute.
  - apply to_parents_older, wf_one_container.
  - split; [exact Hst|]. split.
    + destruct (Hold 0 runner_container IRunner) as (K' & HK' & _ & Hb); [by vm_compute|].
      exists K'. split; [exact HK'|]. rewrite Hb. by vm_compute.
    + apply (Hget 1 (root_context 0) (mk_retriever 0)). by vm_compute.
Defined.

Lemma requesting_container_witness :
  ∃ h',
    get_root (tests_types false) 2 1 Spider heap_family = (Return 1, h')
    ∧ objects h' = [mk_object WaspNest []; mk_object Spider [0]].
Proof.
  eexists. split.
  - rewrite (proj1 (dependencies_resolved_by_requesting_container (tests_types false)
               0 1 family_child 0 Spider INest
               (mk_retriever 0) [] (mk_storage Spider false None)
               (mk_retriever 3) [] (mk_storage WaspNest false None)
               (bindings family_parent INest) heap_family
               ltac:(apply wf_heap_family) ltac:(by vm_compute) ltac:(by vm_compute)
               ltac:(by vm_compute)
               ltac:(change [mk_retriever 0] with (bindings family_parent Spider);
                     apply candidates_root; by vm_compute)
               ltac:(by vm_compute) ltac:(by vm_compute) ltac:(by vm_compute)
               ltac:(by vm_compute)
               ltac:(apply candidates_root; by vm_compute)
               ltac:(by vm_compute) ltac:(by vm_compute) ltac:(by vm_compute)
               ltac:(by vm_compute) ltac:(by vm_compute) ltac:(by vm_compute))).
    by vm_compute.
  - by vm_compute.
Defined.

Lemma singleton_scope_witness :
  let tt := tests_types false in
  let c := root_context 0 in
  ∃ a1 a2 a3 h1 h2 h3,
    getInstance tt (get tt 1) 0 c heap_runner = (Return a1, c, h1)
    ∧ getInstance tt (get tt 1) 0 c h1 = (Return a2, c, h2)
    ∧ getInstance tt (get tt 1) 0 c (InSingletonScope 0 h2) = (Return a3, c, h3)
    ∧ a1 ≠ a2 ∧ a3 ≠ a1 ∧ a3 ≠ a2
    ∧ getInstance tt (get tt 0) 0 c h3 = (Return a3, c, h3).
Proof.
  intros tt c.
  set (h1 := (getInstance tt (get tt 1) 0 c heap_runner).2).
  set (h2 := (getInstance tt (get tt 1) 0 c h1).2).
  set (h3 := (getInstance tt (get tt 1) 0 c (InSingletonScope 0 h2)).2).
  assert (getInstance tt (get tt 1) 0 c heap_runner = (Return 0, c, h1)) as E1
    by (by vm_compute).
  assert (getInstance tt (get tt 1) 0 c h1 = (Return 1, c, h2)) as E2 by (by vm_compute).
  assert (getInstance tt (get tt 1) 0 c (InSingletonScope 0 h2) = (Return 2, c, h3)) as E3
    by (by vm_compute).
  destruct (singleton_scope_after_resolution tt 1 1 1 0 (mk_storage Cheetah false None)
              c c c c c c 0 1 2 heap_runner h1 h2 h3)
    as (H12 & Hs2 & H31 & H32 & Hfresh & Hruns & Hs3 & Hlater); try (by vm_compute).
  exists 0, 1, 2, h1, h2, h3.
  split; [exact E1|]. split; [exact E2|]. split; [exact E3|].
  split; [exact H12|]. split; [exact H31|]. split; [exact H32|]. apply Hlater.
Defined.

(** ** A cycle that is not reported as one *)

Lemma Container_get_no_candidates tt getf this I c h :
  findInstanceRetrievers (containers h) this (make_component_type I EmptyString) = Some [] →
  Container_get tt getf this I c h
  = (Throw (ComponentNotFoundException (make_component_type I EmptyString)), c, h).
Proof. intros Hfind. unfold Container_get. by rewrite Hfind. Qed.


(** * Storages reachable through the interface *)

Lemma transient_uncached_empty : transient_uncached empty_heap.
Proof. intros sid s Hs. simpl in Hs. by rewrite lookup_nil in Hs. Qed.

Lemma transient_uncached_Container_new parent h :
  transient_uncached h → transient_uncached (Container_new parent h).2.
Proof. done. Qed.

Lemma transient_uncached_to c T Impl h :
  transient_uncached h → transient_uncached (to c T Impl h).2.
Proof.
  intros Hinv sid s Hs Hf.
  assert (storages (to c T Impl h).2 = storages h ++ [mk_storage Impl false None]) as E.
  { unfold to, registerType. simpl. by destruct (containers h !! c). }
  rewrite E in Hs. apply lookup_app_Some in Hs as [Hs|[_ Hs]]; [by eapply Hinv|].
  by apply list_lookup_singleton_Some in Hs as [_ <-].
Qed.

Lemma transient_uncached_InSingletonScope sid h :
  transient_uncached h → transient_uncached (InSingletonScope sid h).
Proof.
  intros Hinv k s Hs Hf. unfold InSingletonScope, setSingleton in Hs.
  destruct (storages h !! sid) as [s0|] eqn:Hs0; [|by eapply Hinv].
  simpl in Hs. destruct (decide (k = sid)) as [->|Hne].
  - rewrite list_lookup_insert_eq in Hs by (by eapply lookup_lt_Some).
    injection Hs as <-. done.
  - rewrite list_lookup_insert_ne in Hs by done. by eapply Hinv.
Qed.

Lemma transient_uncached_evolves c h h' :
  evolves c h h' → transient_uncached h → transient_uncached h'.
Proof.
  intros Hev Hinv sid s' Hs' Hf.
  destruct (Forall2_lookup_r _ _ _ _ _ (ev_storages _ _ _ Hev) Hs') as (s & Hs & Hle).
  rewrite (sle_transient _ _ Hle).
  - apply (Hinv sid s Hs). rewrite <- (sle_flag _ _ Hle). done.
  - rewrite <- (sle_flag _ _ Hle). done.
Qed.

Lemma transient_uncached_get_root tt fuel this T h :
  transient_uncached h → transient_uncached (get_root tt fuel this T h).2.
Proof.
  intros Hinv. unfold get_root.
  destruct (obeys_get tt fuel this T (root_context this) h) as (r & h' & E & Hev).
  unfold root_context in E. rewrite E. simpl. by eapply transient_uncached_evolves.
Qed.

(** * The object graph *)

Lemma heap_ok_empty tt : heap_ok tt empty_heap.
Proof.
  split.
  - intros sid s a Hs. simpl in Hs. by rewrite lookup_nil in Hs.
  - intros a o Ho. simpl in Ho. by rewrite lookup_nil in Ho.
Qed.

Lemma heap_ok_Container_new tt parent h :
  heap_ok tt h → heap_ok tt (Container_new parent h).2.
Proof. intros [Hc Ho]. by split. Qed.

Lemma to_storages c T Impl h :
  storages (to c T Impl h).2 = storages h ++ [mk_storage Impl false None]
  ∧ objects (to c T Impl h).2 = objects h
  ∧ factory_calls (to c T Impl h).2 = factory_calls h.
Proof. unfold to, registerType. simpl. by destruct (containers h !! c). Qed.

Lemma heap_ok_to tt c T Impl h : heap_ok tt h → heap_ok tt (to c T Impl h).2.
Proof.
  intros [Hc Ho]. destruct (to_storages c T Impl h) as (Es & Eo & _).
  split; rewrite ?Es, ?Eo; [|done].
  intros sid s a Hs Ha.
  apply lookup_app_Some in Hs as [Hs|[_ Hs]]; [by eapply Hc|].
  apply list_lookup_singleton_Some in Hs as [_ <-]. done.
Qed.

Lemma setSingleton_lookup sid value h k :
  storages (setSingleton sid value h) !! k
  = if bool_decide (k = sid)
    then (λ s, mk_storage (TImplementation s) value (mInstance s)) <$> storages h !! k
    else storages h !! k.
Proof.
  unfold setSingleton. destruct (storages h !! sid) as [s|] eqn:Hs; simpl.
  - case_bool_decide as Hk.
    + subst k. rewrite Hs. simpl. apply list_lookup_insert_eq. by eapply lookup_lt_Some.
    + by rewrite list_lookup_insert_ne.
  - case_bool_decide as Hk; [|done]. subst k. by rewrite Hs.
Qed.

Lemma setSingleton_rest sid value h :
  containers (setSingleton sid value h) = containers h
  ∧ objects (setSingleton sid value h) = objects h
  ∧ factory_calls (setSingleton sid value h) = factory_calls h.
Proof. unfold setSingleton. by destruct (storages h !! sid). Qed.

Lemma heap_ok_setSingleton tt sid value h :
  heap_ok tt h → heap_ok tt (setSingleton sid value h).
Proof.
  intros [Hc Ho]. destruct (setSingleton_rest sid value h) as (_ & Eo & _).
  split; rewrite ?Eo; [|done].
  intros k s a Hs Ha. rewrite setSingleton_lookup in Hs.
  case_bool_decide; [|by eapply Hc].
  destruct (storages h !! k) as [s0|] eqn:Hs0; [|done].
  simpl in Hs. injection Hs as <-. simpl in *. by eapply Hc.
Qed.

Lemma heap_ok_logged tt sid h : heap_ok tt h → heap_ok tt (logged sid h).
Proof. intros [Hc Ho]. by split. Qed.

Lemma heap_ok_allocated tt T args h :
  heap_ok tt h →
  length args = length (ctor_args tt T) →
  Forall (λ b, b < length (objects h)) args →
  heap_ok tt (allocated T args h).
Proof.
  intros [Hc Ho] Hlen Hargs. split; simpl.
  - intros sid s a Hs Ha. destruct (Hc sid s a Hs Ha) as (o & Hoa & Hty).
    exists o. split; [|done]. by apply lookup_app_l_Some.
  - intros a o Hoa. apply lookup_app_Some in Hoa as [Hoa|[Hge Hoa]]; [by apply Ho|].
    apply list_lookup_singleton_Some in Hoa as [Ha <-]. simpl.
    assert (a = length (objects h)) as -> by lia. done.
Qed.

(** A computation is sound when it keeps the object graph in order and
    returns the address of an object. *)
Lemma get_args_sound tt getf args :
  (∀ T, obeys (getf T)) →
  (∀ T c h r c' h', heap_ok tt h → getf T c h = (r, c', h') →
     heap_ok tt h' ∧ ∀ a, r = Return a → a < length (objects h')) →
  ∀ c h r c' h', heap_ok tt h → get_args getf args c h = (r, c', h') →
    heap_ok tt h'
    ∧ ∀ ptrs, r = Return ptrs →
        length ptrs = length args ∧ Forall (λ b, b < length (objects h')) ptrs.
Proof.
  intros Hob Hsound. induction args as [|T rest IH]; intros c h r c' h' Hok; simpl.
  - intros [= <- <- <-]. split; [done|]. by intros ptrs [= <-].
  - unfold bind at 1.
    destruct (getf T c h) as [[r1 c1] h1] eqn:E1.
    destruct (Hsound T c h r1 c1 h1 Hok E1) as [Hok1 Hr1].
    destruct r1 as [a|e| |]; try (intros [= <- <- <-]; by split).
    unfold bind.
    destruct (obeys_get_args getf rest Hob c1 h1) as (r2 & h2 & E2 & Hev2).
    rewrite E2.
    destruct (IH c1 h1 r2 c1 h2 Hok1 E2) as [Hok2 Hr2].
    destruct r2 as [others|e| |]; try (intros [= <- <- <-]; by split).
    unfold ret. intros [= <- <- <-]. split; [done|].
    intros ptrs [= <-]. destruct (Hr2 others eq_refl) as [Hlen Hall].
    split; [simpl; by rewrite Hlen|].
    constructor; [|done].
    pose proof (prefix_length _ _ (ev_objects _ _ _ Hev2)). specialize (Hr1 a eq_refl). lia.
Qed.

Lemma arg_order_length {A} tt (l : list A) : length (arg_order tt l) = length l.
Proof. unfold arg_order. destruct (right_to_left tt); [apply length_rev|done]. Qed.

Lemma arg_order_Forall {A} tt (P : A → Prop) (l : list A) :
  Forall P l → Forall P (arg_order tt l).
Proof. unfold arg_order. destruct (right_to_left tt); [|done]. apply Forall_rev. Qed.

Section Soundness.

Context (tt : TypeTable).
Context (getf : nat → type_info → M nat).
Context (Hgetf : ∀ k T, obeys (getf k T)).
Context (Hsound : ∀ k T c h r c' h', heap_ok tt h → getf k T c h = (r, c', h') →
                    heap_ok tt h' ∧ ∀ a, r = Return a → a < length (objects h')).

Lemma createInstance_sound sid T c h r c' h' :
  heap_ok tt h → createInstance tt getf sid T c h = (r, c', h') →
  heap_ok tt h' ∧ ∀ a, r = Return a → a < length (objects h').
Proof.
  intros Hok. unfold createInstance.
  destruct (ensureNoCycle _) as [e|].
  { intros [= <- <- <-]. by split. }
  unfold factory_createInstance, invoke.
  set (c1 := pushType c _). fold (logged sid h).
  unfold bind at 1.
  destruct (get_args _ _ c1 (logged sid h)) as [[r1 c2] h2] eqn:E1.
  destruct (get_args_sound tt (getf (getContainer c1)) _ (Hgetf _) (Hsound _)
              c1 (logged sid h) r1 c2 h2 (heap_ok_logged tt sid h Hok) E1) as [Hok2 Hr1].
  destruct r1 as [ptrs|e| |]; try (intros [= <- <- <-]; by split).
  destruct (Hr1 ptrs eq_refl) as [Hlen Hall].
  unfold make_shared. fold (allocated T (arg_order tt ptrs) h2).
  intros [= <- <- <-]. split.
  - apply heap_ok_allocated; [done| |by apply arg_order_Forall].
    by rewrite arg_order_length, Hlen, arg_order_length.
  - intros a [= <-]. simpl. rewrite length_app. simpl. lia.
Qed.

Lemma getInstance_sound sid c h r c' h' :
  heap_ok tt h → getInstance tt getf sid c h = (r, c', h') →
  heap_ok tt h' ∧ ∀ a, r = Return a → a < length (objects h').
Proof.
  intros Hok. unfold getInstance.
  destruct (storages h !! sid) as [s|] eqn:Hs.
  2:{ intros [= <- <- <-]. by split. }
  destruct (mIsSingleton s) eqn:Hf; simpl; [|by apply createInstance_sound].
  destruct (mInstance s) as [a0|] eqn:Ha.
  { intros [= <- <- <-]. split; [done|]. intros a [= <-].
    destruct (ok_cache tt h Hok sid s a0 Hs Ha) as (o & Ho & _). by eapply lookup_lt_Some. }
  destruct (createInstance tt getf sid (TImplementation s) c h) as [[r1 c1] h1] eqn:E1.
  destruct (createInstance_sound sid _ c h r1 c1 h1 Hok E1) as [Hok1 Hr1].
  destruct r1 as [a|e| |]; try (intros [= <- <- <-]; by split).
  intros [= <- <- <-].
  destruct (createInstance_obeys tt getf Hgetf sid s c h Hs) as (r2 & h2 & E2 & _ & Hs1 & _).
  rewrite E1 in E2. injection E2 as <- -> <-.
  destruct (createInstance_Return tt getf Hgetf sid s c h a c h1 Hs E1)
    as (args & Hoa & _).
  unfold set_mInstance. rewrite Hs1. split; [|by apply Hr1].
  destruct Hok1 as [Hc1 Ho1]. split; simpl; [|done].
  intros k s' a' Hs' Ha'.
  destruct (decide (k = sid)) as [->|Hne].
  - rewrite list_lookup_insert_eq in Hs' by (by eapply lookup_lt_Some).
    injection Hs' as <-. simpl in *. injection Ha' as <-. by eexists.
  - rewrite list_lookup_insert_ne in Hs' by done. by eapply Hc1.
Qed.

Lemma Container_get_sound this T c h r c' h' :
  heap_ok tt h → Container_get tt getf this T c h = (r, c', h') →
  heap_ok tt h' ∧ ∀ a, r = Return a → a < length (objects h').
Proof.
  intros Hok. unfold Container_get, forwardInstance.
  destruct (findInstanceRetrievers _ _ _) as [[|r0 rest]|];
    try (intros [= <- <- <-]; by split).
  by apply getInstance_sound.
Qed.

End Soundness.

Lemma get_sound tt fuel :
  ∀ this T c h r c' h', heap_ok tt h → get tt fuel this T c h = (r, c', h') →
    heap_ok tt h' ∧ ∀ a, r = Return a → a < length (objects h').
Proof.
  induction fuel as [|n IH]; intros this T c h r c' h' Hok.
  - intros [= <- <- <-]. by split.
  - change (get tt (S n) this T) with (Container_get tt (get tt n) this T).
    apply Container_get_sound; [intros; apply obeys_get|done|done].
Qed.

(** X10: resolution keeps the object graph in order.  After a top-level
    [get], whatever its outcome, every cache still points to an object of its
    storage's implementation type, every object holds as many dependencies
    as its constructor has parameters, each built before the object itself,
    and a returned address is that of an object. *)
Theorem resolution_keeps_object_graph tt fuel this T h :
  heap_ok tt h →
  heap_ok tt (get_root tt fuel this T h).2
  ∧ ∀ a, (get_root tt fuel this T h).1 = Return a →
         a < length (objects (get_root tt fuel this T h).2).
Proof.
  intros Hok. unfold get_root.
  destruct (get tt fuel this T _ h) as [[r c'] h'] eqn:E.
  simpl. by eapply get_sound.
Qed.

(** X11: what [get] returns for [I] is an object of the implementation
    type of the first candidate binding for [I], with one dependency per
    constructor parameter. *)
Theorem get_returns_instance_of_first_candidate tt fuel this I c h a c' h' :
  heap_ok tt h →
  get tt fuel this I c h = (Return a, c', h') →
  ∃ r rest s o,
    findInstanceRetrievers (containers h) this (make_component_type I EmptyString)
    = Some (r :: rest)
    ∧ storages h !! storage_ r = Some s
    ∧ objects h' !! a = Some o
    ∧ obj_type o = TImplementation s
    ∧ length (obj_args o) = length (ctor_args tt (TImplementation s)).
Proof.
  intros Hok E.
  destruct (get_sound tt fuel this I c h _ c' h' Hok E) as [Hok' _].
  destruct fuel as [|n]; [by injection E|].
  change (get tt (S n) this I) with (Container_get tt (get tt n) this I) in E.
  unfold Container_get, forwardInstance in E.
  destruct (findInstanceRetrievers _ _ _) as [[|r rest]|] eqn:Hfind; try by injection E.
  assert (∃ s o, storages h !! storage_ r = Some s ∧ objects h' !! a = Some o
                 ∧ obj_type o = TImplementation s) as (s & o & Hs & Ho & Hty).
  { unfold getInstance in E.
    destruct (storages h !! storage_ r) as [s|] eqn:Hs; [|by injection E].
    exists s.
    destruct (mIsSingleton s) eqn:Hf; simpl in E.
    - destruct (mInstance s) as [a0|] eqn:Ha.
      + injection E as <- <- <-.
        destruct (ok_cache tt h Hok _ s a0 Hs Ha) as (o & Ho & Hty). by exists o.
      + assert (getInstance tt (get tt n) (storage_ r) c h = (Return a, c', h')) as G.
        { unfold getInstance. by rewrite Hs, Hf, Ha. }
        destruct (getInstance_populate_Return tt (get tt n) (obeys_get tt n)
                    _ _ _ _ _ _ _ Hs Hf Ha G) as (_ & args & Ho & _).
        by eexists.
    - destruct (createInstance_Return tt (get tt n) (obeys_get tt n)
                  _ _ _ _ _ _ _ Hs E) as (args & Ho & _).
      by eexists. }
  exists r, rest, s, o. repeat split; try done.
  rewrite <- Hty. by apply (ok_objects tt h' Hok' a o Ho).
Qed.

(** X12: a top-level [get] only adds.  Whatever its outcome, the
    containers are the same, every storage keeps its implementation type
    and its lifetime flag, a filled cache keeps its instance, a transient
    storage keeps its empty or filled cache as it was, and every object that
    existed is still there unchanged. *)
Theorem get_root_only_adds tt fuel this T h :
  containers (get_root tt fuel this T h).2 = containers h
  ∧ length (storages (get_root tt fuel this T h).2) = length (storages h)
  ∧ (∀ sid s, storages h !! sid = Some s →
       ∃ s', storages (get_root tt fuel this T h).2 !! sid = Some s'
             ∧ TImplementation s' = TImplementation s
             ∧ mIsSingleton s' = mIsSingleton s
             ∧ (∀ a, mInstance s = Some a → mInstance s' = Some a)
             ∧ (mIsSingleton s = false → mInstance s' = mInstance s))
  ∧ (∀ a o, objects h !! a = Some o →
            objects (get_root tt fuel this T h).2 !! a = Some o).
Proof.
  unfold get_root.
  destruct (obeys_get tt fuel this T (root_context this) h) as (r & h' & E & Hev).
  unfold root_context in E. rewrite E. simpl.
  destruct Hev as [C S O L F].
  split; [done|]. split; [symmetry; by eapply Forall2_length|]. split.
  - intros sid s Hs.
    destruct (Forall2_lookup_l _ _ _ _ _ S Hs) as (s' & Hs' & [Hi Hf Hc Ht]).
    by exists s'.
  - intros a o Ho. by eapply prefix_lookup_Some.
Qed.

(** * Which exceptions resolution throws *)

Lemma known_error_get_args tt impls getf args :
  (∀ T, obeys (getf T)) →
  (∀ T c h e c' h', TImplementation <$> storages h = impls →
     getf T c h = (Throw e, c', h') → known_error tt impls e) →
  ∀ c h e c' h', TImplementation <$> storages h = impls →
    get_args getf args c h = (Throw e, c', h') → known_error tt impls e.
Proof.
  intros Hob Hg. induction args as [|T rest IH]; intros c h e c' h' Himpls; simpl.
  - by intros [=].
  - unfold bind at 1.
    destruct (Hob T c h) as (r1 & h1 & E1 & Hev1). rewrite E1.
    destruct r1 as [a|e1| |]; try by intros [=].
    + unfold bind.
      destruct (get_args getf rest c h1) as [[r2 c2] h2] eqn:E2.
      destruct r2 as [others|e2| |]; try by intros [=].
      intros [= <- <- <-]. eapply IH; [|exact E2].
      by rewrite (storage_le_impls _ _ (ev_storages _ _ _ Hev1)).
    + intros [= <- <- <-]. by eapply Hg.
Qed.

Lemma known_error_get tt fuel :
  ∀ this T c h e c' h',
    get tt fuel this T c h = (Throw e, c', h') →
    known_error tt (TImplementation <$> storages h) e.
Proof.
  induction fuel as [|n IH]; intros this T c h e c' h'; [by intros [=]|].
  change (get tt (S n) this T) with (Container_get tt (get tt n) this T).
  unfold Container_get, forwardInstance.
  destruct (findInstanceRetrievers _ _ _) as [[|r rest]|]; try by intros [=].
  { intros [= <- <- <-]. left. by eexists. }
  unfold getInstance.
  destruct (storages h !! storage_ r) as [s|] eqn:Hs; [|by intros [=]].
  assert (∀ c1 h1, createInstance tt (get tt n) (storage_ r) (TImplementation s) c h
                   = (Throw e, c1, h1) →
                   known_error tt (TImplementation <$> storages h) e) as Hcreate.
  { intros c1 h1. unfold createInstance.
    rewrite ensureNoCycle_pushType. simpl.
    case_bool_decide as Hin.
    - intros [= <- <- <-]. right. exists (TImplementation s). split; [|done].
      apply list_elem_of_fmap. exists s. split; [done|]. by eapply list_elem_of_lookup_2.
    - unfold factory_createInstance, invoke.
      set (c0 := pushType c _). set (h0 := mk_heap _ _ _ _).
      unfold bind at 1.
      destruct (get_args _ _ c0 h0) as [[r1 c2] h2] eqn:E1.
      destruct r1 as [ptrs|e1| |]; try by intros [=].
      intros [= <- <- <-].
      eapply (known_error_get_args tt (TImplementation <$> storages h)
                (get tt n (getContainer c0))); [intros; apply obeys_get| | |exact E1].
      + intros T0 c3 h3 e3 c4 h4 Himpls Hget. rewrite <- Himpls. by eapply IH.
      + done. }
  destruct (mIsSingleton s); simpl.
  - destruct (mInstance s); [by intros [=]|].
    destruct (createInstance _ _ _ _ _ _) as [[r1 c1] h1] eqn:E1.
    destruct r1; try by intros [=].
    intros [= <- <- <-]. by eapply Hcreate.
  - apply Hcreate.
Qed.

(** X3: a top-level [get] throws nothing but
    [ComponentNotFoundException] for an identity without display name, or
    [CircularDependencyFound] for the implementation type of a registered
    binding. *)
Theorem get_root_throws_known_errors tt fuel this T h e :
  (get_root tt fuel this T h).1 = Throw e →
  (∃ I, e = ComponentNotFoundException (make_component_type I EmptyString))
  ∨ (∃ sid s, storages h !! sid = Some s
              ∧ e = CircularDependencyFound
                      (make_component_type (TImplementation s)
                         (type_name tt (TImplementation s)))).
Proof.
  unfold get_root.
  destruct (get tt fuel this T _ h) as [[r c'] h'] eqn:E. simpl. intros ->.
  destruct (known_error_get tt fuel this T _ h e c' h' E) as [HI|(T0 & HT0 & ->)].
  - by left.
  - right. apply list_elem_of_fmap in HT0 as (s & -> & Hs).
    apply list_elem_of_lookup in Hs as [sid Hs]. by exists sid, s.
Qed.

(** * The cycle check and its message *)

(** X1: [ensureNoCycle] compares the top frame with every frame below it
    and with nothing else: it throws exactly when a lower frame has the type
    token of the top, whatever the display names, and what it throws is
    [CircularDependencyFound] for the top frame.  A stack that holds only
    one frame never throws. *)
Theorem ensureNoCycle_compares_top_with_frames_below k below top :
  (ensureNoCycle (mk_context k (below ++ [top])) = Some (CircularDependencyFound top)
   ↔ ∃ i x, below !! i = Some x ∧ typeInfo x = typeInfo top)
  ∧ (ensureNoCycle (mk_context k (below ++ [top])) = None
     ↔ ∀ x, x ∈ below → typeInfo x ≠ typeInfo top)
  ∧ (∀ e, ensureNoCycle (mk_context k (below ++ [top])) = Some e →
          e = CircularDependencyFound top)
  ∧ ensureNoCycle (mk_context k [top]) = None.
Proof.
  change (mk_context k (below ++ [top])) with (pushType (mk_context k below) top).
  rewrite ensureNoCycle_pushType. unfold tokens. simpl.
  split; [|split; [|split]].
  - case_bool_decide as Hin; split; try done.
    + intros _. apply list_elem_of_fmap in Hin as (x & Hx & Hin).
      apply list_elem_of_lookup in Hin as [i Hi]. by exists i, x.
    + intros (i & x & Hi & Hx). exfalso. apply Hin.
      apply list_elem_of_fmap. exists x. split; [done|]. by eapply list_elem_of_lookup_2.
  - case_bool_decide as Hin; split; try done.
    + intros Hall. apply list_elem_of_fmap in Hin as (x & Hx & Hin).
      by destruct (Hall x Hin).
    + intros _ x Hx Heq. apply Hin. apply list_elem_of_fmap. by exists x.
  - case_bool_decide; by intros e [= <-].
  - done.
Qed.

(** X2: the exception a construction throws when its implementation is
    already under construction says "Found circular dependency on object"
    followed by the implementation's static [name()] when it has one that is
    not empty, and by the implementation-defined type name otherwise. *)
Theorem cycle_message_names_implementation tt getf sid T c h :
  T ∈ tokens c →
  ∃ e, createInstance tt getf sid T c h = (Throw e, c, h)
       ∧ what tt e
         = String.append "Found circular dependency on object '"
             (String.append (display_name tt T) "'").
Proof.
  intros Hin. exists (cycle_error tt T). split; [by apply createInstance_hit|].
  unfold cycle_error, what, name, make_component_type, type_name, display_name. simpl.
  destruct (static_name tt T) as [n|]; [done|]. by case_bool_decide.
Qed.

(** * Lookup falls back to the parent *)

(** X4: a container that holds no binding of its own for [I] resolves [I]
    exactly as its parent does under the same context. *)
Theorem child_without_binding_resolves_like_parent tt fuel child C parent I c h :
  parents_older (containers h) →
  containers h !! child = Some C →
  parentContainer_ C = Some parent →
  bindings C I = [] →
  get tt fuel child I c h = get tt fuel parent I c h.
Proof.
  intros Hold HC Hp Hb. destruct fuel as [|n]; [done|].
  change (get tt (S n) child I) with (Container_get tt (get tt n) child I).
  change (get tt (S n) parent I) with (Container_get tt (get tt n) parent I).
  unfold Container_get, make_component_type.
  pose proof (Hold _ _ _ HC Hp) as Hlt. apply lookup_lt_Some in HC as Hchild.
  destruct (candidates_exist (containers h) I parent Hold) as [l Hl]; [lia|].
  rewrite (findInstanceRetrievers_candidates _ _ _ _ EmptyString Hold Hl).
  rewrite (findInstanceRetrievers_candidates _ I child ([] ++ l) EmptyString Hold); [done|].
  rewrite <- Hb. by eapply candidates_child.
Qed.

(** * Binding and then resolving *)

Lemma to_first_candidate c C I Impl h :
  containers h !! c = Some C →
  parents_older (containers h) →
  bindings C I = [] →
  ∃ l, findInstanceRetrievers (containers (to c I Impl h).2) c
         (make_component_type I EmptyString)
       = Some (mk_retriever (length (storages h)) :: l).
Proof.
  intros HC Hold Hb.
  pose proof (to_parents_older c I Impl h Hold) as Hold'.
  destruct (to_lookup c C I Impl h c C I HC HC) as (C' & HC' & Hp' & Hb').
  rewrite bool_decide_eq_true_2, Hb in Hb' by done. simpl in Hb'.
  destruct (parentContainer_ C') as [p|] eqn:Hp.
  - destruct (candidates_exist (containers (to c I Impl h).2) I p Hold') as [l Hl].
    { pose proof (Hold' _ _ _ HC' Hp). apply lookup_lt_Some in HC'. lia. }
    exists l. apply findInstanceRetrievers_candidates; [done|].
    change (mk_retriever (length (storages h)) :: l)
      with ([mk_retriever (length (storages h))] ++ l).
    rewrite <- Hb'. by eapply candidates_child.
  - exists []. apply findInstanceRetrievers_candidates; [done|].
    rewrite <- Hb'. by eapply candidates_root.
Qed.

Lemma to_new_storage c I Impl h :
  storages (to c I Impl h).2 !! length (storages h) = Some (mk_storage Impl false None).
Proof.
  destruct (to_storages c I Impl h) as (-> & _).
  by rewrite lookup_app_r, Nat.sub_diag.
Qed.

Lemma root_tokens this T :
  T ≠ depInject_unspecified_component → T ∉ tokens (root_context this).
Proof.
  intros HT. unfold root_context, InjectionContext_new, tokens. simpl.
  by intros ?%list_elem_of_singleton.
Qed.

(** X5: binding and then resolving.  When a container holds no binding
    for [I] yet and [Impl] has a constructor without parameters,
    [bind<I>().to<Impl>()] followed by [get<I>()] on that container returns
    a new object of type [Impl]; with [I = Impl] this is [ToSelf]. *)
Theorem bind_then_get_constructs tt fuel c C I Impl h :
  containers h !! c = Some C →
  parents_older (containers h) →
  bindings C I = [] →
  ctor_args tt Impl = [] →
  Impl ≠ depInject_unspecified_component →
  get_root tt (S fuel) c I (to c I Impl h).2
  = (Return (length (objects h)),
     allocated Impl [] (logged (to c I Impl h).1 (to c I Impl h).2)).
Proof.
  intros HC Hold Hb Hargs Hroot.
  destruct (to_first_candidate c C I Impl h HC Hold Hb) as [l Hfind].
  unfold get_root. fold (root_context c).
  rewrite (get_transient_candidate tt fuel c I _ l (mk_storage Impl false None) _ _ Hfind
             (to_new_storage c I Impl h) eq_refl).
  simpl TImplementation. simpl storage_.
  rewrite createInstance_pass by (by apply root_tokens).
  rewrite (invoke_no_args tt _ _ _ _ Hargs). cbv beta iota.
  change (objects (logged (length (storages h)) (to c I Impl h).2))
    with (objects (to c I Impl h).2).
  by destruct (to_storages c I Impl h) as (_ & -> & _).
Qed.

(** X6: binding as a singleton and then resolving twice.  Under the
    conditions of X5, [bind<I>().to<Impl>().InSingletonScope()] followed by
    two calls of [get<I>()] returns the same new object twice; one object
    was built and the second call changed nothing. *)
Theorem bind_singleton_then_get_twice tt fuel1 fuel2 c C I Impl h :
  containers h !! c = Some C →
  parents_older (containers h) →
  bindings C I = [] →
  ctor_args tt Impl = [] →
  Impl ≠ depInject_unspecified_component →
  ∃ h3,
    get_root tt (S fuel1) c I (InSingletonScope (to c I Impl h).1 (to c I Impl h).2)
    = (Return (length (objects h)), h3)
    ∧ get_root tt (S fuel2) c I h3 = (Return (length (objects h)), h3)
    ∧ objects h3 = objects h ++ [mk_object Impl []]
    ∧ factory_runs (to c I Impl h).1 h3 = S (factory_runs (to c I Impl h).1 h).
Proof.
  intros HC Hold Hb Hargs Hroot.
  destruct (to_first_candidate c C I Impl h HC Hold Hb) as [l Hfind].
  set (sid := (to c I Impl h).1). set (h1 := (to c I Impl h).2).
  assert (sid = length (storages h)) as Hsid by done.
  pose proof (to_new_storage c I Impl h) as Hs1. fold h1 in Hs1. rewrite <- Hsid in Hs1.
  destruct (InSingletonScope_storage sid _ h1 Hs1) as (Hs2 & Hobj & Hcalls & Hcont).
  simpl in Hs2. set (h2 := InSingletonScope sid h1) in *.
  fold h1 in Hfind. rewrite <- Hcont, <- Hsid in Hfind.
  destruct (to_storages c I Impl h) as (_ & Ho1 & Hc1). fold h1 in Ho1, Hc1.
  set (b := length (objects h)).
  set (h3 := set_mInstance sid b (allocated Impl [] (logged sid h2))).
  assert (getInstance tt (get tt fuel1) sid (root_context c) h2
          = (Return b, root_context c, h3)) as G1.
  { unfold getInstance. rewrite Hs2. simpl.
    rewrite createInstance_pass by (by apply root_tokens).
    rewrite (invoke_no_args tt _ _ _ _ Hargs). cbv beta iota.
    rewrite popType_pushType. simpl. by rewrite Hobj, Ho1. }
  assert (storages h3 !! sid = Some (mk_storage Impl true (Some b))) as Hs3.
  { unfold h3, set_mInstance. simpl. rewrite Hs2. simpl.
    apply list_lookup_insert_eq. by eapply lookup_lt_Some. }
  assert (containers h3 = containers h2) as Hcont3.
  { unfold h3, set_mInstance. simpl. by rewrite Hs2. }
  exists h3. split; [|split; [|split]].
  - unfold get_root. fold (root_context c).
    change (get tt (S fuel1) c I) with (Container_get tt (get tt fuel1) c I).
    unfold Container_get, forwardInstance. rewrite Hfind.
    change (storage_ (mk_retriever sid)) with sid. by rewrite G1.
  - unfold get_root. fold (root_context c).
    change (get tt (S fuel2) c I) with (Container_get tt (get tt fuel2) c I).
    unfold Container_get, forwardInstance. rewrite Hcont3, Hfind.
    change (storage_ (mk_retriever sid)) with sid.
    by rewrite (getInstance_cached tt _ sid _ b _ h3 Hs3).
  - unfold h3, set_mInstance. simpl. rewrite Hs2. simpl. by rewrite Hobj, Ho1.
  - unfold h3, set_mInstance, factory_runs. simpl. rewrite Hs2. simpl.
    rewrite Hcalls, Hc1. by destruct (Nat.eq_dec sid sid).
Qed.

(** * The lifetime flag and the cache *)

Lemma setSingleton_storage sid s value h :
  storages h !! sid = Some s →
  storages (setSingleton sid value h) !! sid
  = Some (mk_storage (TImplementation s) value (mInstance s)).
Proof.
  intros Hs. rewrite setSingleton_lookup, bool_decide_eq_true_2 by done. by rewrite Hs.
Qed.

(** X7: [setSingleton] writes the flag and nothing else, so the cache
    outlives a change of lifetime.  A storage with a cached instance that is
    made transient builds new objects, none of them the cached one, and
    keeps the cached one; made singleton again it returns the cached
    instance.  [InSingletonScope] on a storage that is singleton already
    changes nothing. *)
Theorem setSingleton_keeps_cache tt fuel sid s a b c c' h h' :
  heap_ok tt h →
  storages h !! sid = Some s →
  mInstance s = Some a →
  getInstance tt (get tt fuel) sid c (setSingleton sid false h) = (Return b, c', h') →
  b ≠ a
  ∧ storages h' !! sid = Some (mk_storage (TImplementation s) false (Some a))
  ∧ (∀ fuel2 c2,
       getInstance tt (get tt fuel2) sid c2 (setSingleton sid true h')
       = (Return a, c2, setSingleton sid true h'))
  ∧ (mIsSingleton s = true → InSingletonScope sid h = h).
Proof.
  intros Hok Hs Ha G.
  pose proof (setSingleton_storage sid s false h Hs) as Hs0. rewrite Ha in Hs0.
  destruct (getInstance_transient_Return tt (get tt fuel) (obeys_get tt fuel)
              _ _ _ _ _ _ _ Hs0 eq_refl G) as (Hs' & args & Hob & Hlen & Hle & _).
  destruct (setSingleton_rest sid false h) as (_ & Eo & _). rewrite Eo in Hle.
  destruct (ok_cache tt h Hok sid s a Hs Ha) as (o & Hoa & _).
  apply lookup_lt_Some in Hoa.
  split; [lia|]. split; [done|]. split.
  - intros fuel2 c2.
    apply getInstance_cached with (s := mk_storage (TImplementation s) true (Some a));
      [|done|done].
    by rewrite (setSingleton_storage sid _ true h' Hs').
  - intros Hf. unfold InSingletonScope, setSingleton. rewrite Hs.
    rewrite list_insert_id; [by destruct h|].
    rewrite Hs. f_equal. destruct s. simpl in *. by subst.
Qed.

(** X8: a construction that throws leaves its storage as it was.  In
    particular a singleton whose first construction fails has no cached
    instance afterwards, and the context comes back unchanged. *)
Theorem failed_construction_leaves_storage tt fuel sid s c h e c' h' :
  storages h !! sid = Some s →
  getInstance tt (get tt fuel) sid c h = (Throw e, c', h') →
  storages h' !! sid = Some s ∧ c' = c ∧ containers h' = containers h.
Proof.
  intros Hs. unfold getInstance. rewrite Hs.
  destruct (createInstance_obeys tt (get tt fuel) (obeys_get tt fuel) sid s c h Hs)
    as (r & h1 & E & Hev & Hs1 & _).
  rewrite E.
  destruct (mIsSingleton s); simpl.
  - destruct (mInstance s); [by intros [=]|].
    destruct r; try by intros [=].
    intros [= <- <- <-]. split; [done|]. split; [done|]. apply Hev.
  - intros [= -> <- <-]. split; [done|]. split; [done|]. apply Hev.
Qed.

(** While [T] is constructed no storage of a binding to [T] changes. *)
Lemma createInstance_freezes tt getf sid T c h r c' h' k s :
  (∀ j U, obeys (getf j U)) →
  storages h !! k = Some s → TImplementation s = T →
  createInstance tt getf sid T c h = (r, c', h') →
  storages h' !! k = Some s.
Proof.
  intros Hgetf Hs HT. unfold createInstance.
  rewrite ensureNoCycle_pushType. simpl.
  case_bool_decide as Hin; [by intros [= <- <- <-]|].
  unfold factory_createInstance.
  set (f := make_component_type T (type_name tt T)). set (h1 := mk_heap _ _ _ _).
  destruct (obeys_invoke tt getf Hgetf T (pushType c f) h1) as (r1 & h2 & -> & Hev).
  intros [= <- <- <-].
  apply (ev_frozen _ _ _ Hev k s Hs).
  rewrite tokens_pushType, HT. apply elem_of_app. right. by apply list_elem_of_singleton.
Qed.

(** X9: the singleton scope belongs to the binding, not to the
    implementation type.  Two singleton bindings to the same implementation
    have two storages; resolved one after the other they return two
    different objects, each cached in its own storage. *)
Theorem singleton_scope_is_per_binding
    tt fuel1 fuel2 sid1 sid2 s1 s2 c1 c2 c1' c2' a1 a2 h h1 h2 :
  sid1 ≠ sid2 →
  storages h !! sid1 = Some s1 →
  storages h !! sid2 = Some s2 →
  TImplementation s1 = TImplementation s2 →
  mIsSingleton s1 = true → mInstance s1 = None →
  mIsSingleton s2 = true → mInstance s2 = None →
  getInstance tt (get tt fuel1) sid1 c1 h = (Return a1, c1', h1) →
  getInstance tt (get tt fuel2) sid2 c2 h1 = (Return a2, c2', h2) →
  a1 ≠ a2
  ∧ storages h2 !! sid1 = Some (mk_storage (TImplementation s1) true (Some a1))
  ∧ storages h2 !! sid2 = Some (mk_storage (TImplementation s2) true (Some a2)).
Proof.
  intros Hne Hs1 Hs2 Himpl Hf1 Hn1 Hf2 Hn2 G1 G2.
  destruct (getInstance_populate_Return tt (get tt fuel1) (obeys_get tt fuel1)
              _ _ _ _ _ _ _ Hs1 Hf1 Hn1 G1) as (Hs1' & args1 & Ho1 & Hl1 & _).
  assert (storages h1 !! sid2 = Some s2) as Hs2'.
  { revert G1. unfold getInstance. rewrite Hs1, Hf1, Hn1. simpl.
    destruct (createInstance _ _ _ _ _ _) as [[r c0] h0] eqn:E.
    pose proof (createInstance_freezes tt (get tt fuel1) sid1 _ c1 h r c0 h0 sid2 s2
                  (obeys_get tt fuel1) Hs2 (eq_sym Himpl) E) as Hfr.
    destruct r; try by intros [=].
    intros [= <- <- <-]. unfold set_mInstance.
    destruct (storages h0 !! sid1); [|done]. simpl.
    by rewrite list_lookup_insert_ne. }
  destruct (getInstance_populate_Return tt (get tt fuel2) (obeys_get tt fuel2)
              _ _ _ _ _ _ _ Hs2' Hf2 Hn2 G2) as (Hs2'' & args2 & Ho2 & Hl2 & Hle2 & _).
  split; [lia|]. split; [|done].
  destruct (obeys_getInstance tt (get tt fuel2) (obeys_get tt fuel2) sid2 c2 h1)
    as (r & h2' & G2' & Hev).
  rewrite G2 in G2'. injection G2' as <- _ <-.
  destruct (Forall2_lookup_l _ _ _ _ _ (ev_storages _ _ _ Hev) Hs1')
    as (s' & Hs' & [Hi Hf Hc _]).
  rewrite Hs'. f_equal. destruct s'. simpl in *.
  rewrite Hi, Hf, (Hc a1 eq_refl). done.
Qed.

(** ** These theorems at work on the heaps of the tests *)

Lemma heap_ok_one_container tt : heap_ok tt one_container.
Proof. apply heap_ok_Container_new, heap_ok_empty. Qed.

Lemma heap_ok_get_root tt fuel this T h :
  heap_ok tt h → heap_ok tt (get_root tt fuel this T h).2.
Proof.
  intros Hok. unfold get_root.
  destruct (get tt fuel this T _ h) as [[r c'] h'] eqn:E. simpl.
  by eapply get_sound.
Qed.

Lemma heap_ok_heap_spider tt : heap_ok tt heap_spider.
Proof.
  unfold heap_spider, InSingletonScope, ToSelf.
  apply heap_ok_setSingleton. repeat apply heap_ok_to. apply heap_ok_one_container.
Qed.

Lemma heap_ok_heap_runner_singleton tt : heap_ok tt heap_runner_singleton.
Proof.
  unfold heap_runner_singleton, heap_runner, InSingletonScope.
  apply heap_ok_setSingleton, heap_ok_to, heap_ok_one_container.
Qed.

Lemma cycle_message_witness :
  let c := pushType (root_context 0) (make_component_type Start "Start") in
  ∃ e,
    createInstance (tests_types false) (get (tests_types false) 0) 0 Start c heap_cycle
    = (Throw e, c, heap_cycle)
    ∧ what (tests_types false) e = "Found circular dependency on object 'Start'"%string.
Proof.
  intros c.
  destruct (cycle_message_names_implementation (tests_types false)
              (get (tests_types false) 0) 0 Start c heap_cycle) as (e & E & W).
  - apply (bool_decide_unpack _). by vm_compute.
  - exists e. split; [exact E|]. rewrite W. by vm_compute.
Defined.

Lemma known_errors_witness :
  (∃ I, CircularDependencyFound (make_component_type Start "Start")
        = ComponentNotFoundException (make_component_type I EmptyString))
  ∨ (∃ sid s,
       storages heap_cycle !! sid = Some s
       ∧ CircularDependencyFound (make_component_type Start "Start")
         = CircularDependencyFound
             (make_component_type (TImplementation s)
                (type_name (tests_types false) (TImplementation s)))).
Proof.
  apply (get_root_throws_known_errors (tests_types false) 4 0 Start heap_cycle).
  by vm_compute.
Defined.

Lemma inherited_binding_witness :
  get (tests_types false) 3 1 Spider (root_context 1) heap_family
  = get (tests_types false) 3 0 Spider (root_context 1) heap_family.
Proof.
  apply (child_without_binding_resolves_like_parent (tests_types false) 3 1 family_child 0
           Spider (root_context 1) heap_family).
  - apply wf_heap_family.
  - by vm_compute.
  - by vm_compute.
  - by vm_compute.
Defined.

Lemma bind_then_get_witness :
  (get_root (tests_types false) 1 1 Cheetah (ToSelf 1 Cheetah heap_family).2).1 = Return 0.
Proof.
  unfold ToSelf.
  rewrite (bind_then_get_constructs (tests_types false) 0 1 family_child Cheetah Cheetah
             heap_family).
  - by vm_compute.
  - by vm_compute.
  - apply wf_heap_family.
  - by vm_compute.
  - by vm_compute.
  - by vm_compute.
Defined.

Lemma bind_singleton_witness :
  ∃ h3,
    get_root (tests_types false) 1 1 Cheetah
      (InSingletonScope (ToSelf 1 Cheetah heap_family).1 (ToSelf 1 Cheetah heap_family).2)
    = (Return 0, h3)
    ∧ get_root (tests_types false) 1 1 Cheetah h3 = (Return 0, h3)
    ∧ objects h3 = [mk_object Cheetah []].
Proof.
  destruct (bind_singleton_then_get_twice (tests_types false) 0 0 1 family_child
              Cheetah Cheetah heap_family) as (h3 & E1 & E2 & Ho & _).
  - by vm_compute.
  - apply wf_heap_family.
  - by vm_compute.
  - by vm_compute.
  - by vm_compute.
  - exists h3. split; [exact E1|]. split; [exact E2|]. rewrite Ho. by vm_compute.
Defined.

Lemma setSingleton_witness :
  let tt := tests_types false in
  let c := root_context 0 in
  let h := (get_root tt 1 0 IRunner heap_runner_singleton).2 in
  ∃ b h',
    getInstance tt (get tt 0) 0 c (setSingleton 0 false h) = (Return b, c, h')
    ∧ b ≠ 0
    ∧ storages h' !! 0 = Some (mk_storage Cheetah false (Some 0))
    ∧ getInstance tt (get tt 0) 0 c (setSingleton 0 true h')
      = (Return 0, c, setSingleton 0 true h').
Proof.
  intros tt c h.
  set (h' := (getInstance tt (get tt 0) 0 c (setSingleton 0 false h)).2).
  assert (getInstance tt (get tt 0) 0 c (setSingleton 0 false h) = (Return 1, c, h')) as G
    by (by vm_compute).
  destruct (setSingleton_keeps_cache tt 0 0 (mk_storage Cheetah true (Some 0)) 0 1 c c h h')
    as (Hne & Hs & Hback & _).
  - apply heap_ok_get_root, heap_ok_heap_runner_singleton.
  - by vm_compute.
  - by vm_compute.
  - exact G.
  - exists 1, h'. split; [exact G|]. split; [exact Hne|]. split; [exact Hs|]. apply Hback.
Defined.

Lemma failed_construction_witness :
  let tt := tests_types false in
  let h := InSingletonScope 0 heap_ping_pong in
  ∃ e h',
    getInstance tt (get tt 2) 0 (root_context 0) h = (Throw e, root_context 0, h')
    ∧ storages h' !! 0 = Some (mk_storage Ping true None).
Proof.
  intros tt h.
  set (e := ComponentNotFoundException (make_component_type Unbound EmptyString)).
  set (h' := (getInstance tt (get tt 2) 0 (root_context 0) h).2).
  assert (getInstance tt (get tt 2) 0 (root_context 0) h = (Throw e, root_context 0, h'))
    as G by (by vm_compute).
  destruct (failed_construction_leaves_storage tt 2 0 (mk_storage Ping true None)
              (root_context 0) h e (root_context 0) h') as (Hs & _ & _).
  - by vm_compute.
  - exact G.
  - exists e, h'. split; [exact G|exact Hs].
Defined.

Lemma singleton_per_binding_witness :
  let tt := tests_types false in
  let c := root_context 0 in
  ∃ a1 a2 h1 h2,
    getInstance tt (get tt 0) 0 c heap_two_singletons = (Return a1, c, h1)
    ∧ getInstance tt (get tt 0) 1 c h1 = (Return a2, c, h2)
    ∧ a1 ≠ a2
    ∧ storages h2 !! 0 = Some (mk_storage Cheetah true (Some a1))
    ∧ storages h2 !! 1 = Some (mk_storage Cheetah true (Some a2)).
Proof.
  intros tt c.
  set (h1 := (getInstance tt (get tt 0) 0 c heap_two_singletons).2).
  set (h2 := (getInstance tt (get tt 0) 1 c h1).2).
  assert (getInstance tt (get tt 0) 0 c heap_two_singletons = (Return 0, c, h1)) as G1
    by (by vm_compute).
  assert (getInstance tt (get tt 0) 1 c h1 = (Return 1, c, h2)) as G2 by (by vm_compute).
  destruct (singleton_scope_is_per_binding tt 0 0 0 1
              (mk_storage Cheetah true None) (mk_storage Cheetah true None)
              c c c c 0 1 heap_two_singletons h1 h2) as (Hne & Hs1 & Hs2);
    try (by vm_compute).
  exists 0, 1, h1, h2.
  split; [exact G1|]. split; [exact G2|]. split; [exact Hne|]. split; [exact Hs1|exact Hs2].
Defined.

Lemma object_graph_witness :
  heap_ok (tests_types false) (get_root (tests_types false) 3 0 Spider heap_spider).2
  ∧ ∀ a, (get_root (tests_types false) 3 0 Spider heap_spider).1 = Return a →
         a < length (objects (get_root (tests_types false) 3 0 Spider heap_spider).2).
Proof.
  apply (resolution_keeps_object_graph (tests_types false) 3 0 Spider heap_spider).
  apply heap_ok_heap_spider.
Defined.

Lemma first_candidate_instance_witness :
  ∃ h' o,
    get (tests_types false) 3 0 Spider (root_context 0) heap_spider
    = (Return 1, root_context 0, h')
    ∧ objects h' !! 1 = Some o
    ∧ obj_type o = Spider
    ∧ length (obj_args o) = 1.
Proof.
  set (tt := tests_types false).
  set (h' := (get tt 3 0 Spider (root_context 0) heap_spider).2).
  assert (get tt 3 0 Spider (root_context 0) heap_spider = (Return 1, root_context 0, h'))
    as G by (by vm_compute).
  destruct (get_returns_instance_of_first_candidate tt 3 0 Spider (root_context 0)
              heap_spider 1 (root_context 0) h' (heap_ok_heap_spider tt) G)
    as (r & rest & s & o & Hfind & Hs & Ho & Hty & Hlen).
  vm_compute in Hfind. injection Hfind as <- <-.
  vm_compute in Hs. injection Hs as <-.
  exists h', o. split; [exact G|]. split; [exact Ho|]. split; [exact Hty|exact Hlen].
Defined.

(** * A new container, and a dependency nobody binds *)

(** X13: a container binds nothing when it is made.  A new container
    without parent throws [ComponentNotFoundException] for every identity; a
    new container with a parent resolves every identity exactly as the
    parent does under the same context. *)
Theorem new_container_binds_nothing tt parent h :
  parents_older (containers h) →
  (∀ p, parent = Some p → p < length (containers h)) →
  (Container_new parent h).1 = length (containers h)
  ∧ ∀ fuel I c,
      get tt fuel (length (containers h)) I c (Container_new parent h).2
      = match parent with
        | Some p => get tt fuel p I c (Container_new parent h).2
        | None =>
            match fuel with
            | 0 => (OutOfFuel, c, (Container_new parent h).2)
            | S _ =>
                (Throw (ComponentNotFoundException (make_component_type I EmptyString)),
                 c, (Container_new parent h).2)
            end
        end.
Proof.
  intros Hold Hparent. split; [done|]. intros fuel I c.
  set (h' := (Container_new parent h).2).
  assert (containers h' !! length (containers h) = Some (mk_container parent ∅)) as HC.
  { unfold h'. simpl. by rewrite lookup_app_r, Nat.sub_diag. }
  assert (parents_older (containers h')) as Hold'.
  { intros i C p Hi Hp. unfold h' in Hi. simpl in Hi.
    apply lookup_app_Some in Hi as [Hi|[Hge Hi]]; [by eapply Hold|].
    apply list_lookup_singleton_Some in Hi as [Hi' <-]. simpl in Hp.
    specialize (Hparent p Hp). lia. }
  assert (bindings (mk_container parent ∅) I = []) as Hb.
  { unfold bindings. simpl. by rewrite lookup_empty. }
  destruct fuel as [|n]; [by destruct parent|].
  change (get tt (S n) (length (containers h)) I)
    with (Container_get tt (get tt n) (length (containers h)) I).
  destruct parent as [p|].
  - change (get tt (S n) p I) with (Container_get tt (get tt n) p I).
    unfold Container_get, make_component_type.
    destruct (candidates_exist (containers h') I p Hold') as [l Hl].
    { unfold h'. simpl. rewrite length_app. simpl. specialize (Hparent p eq_refl). lia. }
    rewrite (findInstanceRetrievers_candidates _ _ _ _ EmptyString Hold' Hl).
    rewrite (findInstanceRetrievers_candidates _ I (length (containers h)) ([] ++ l)
               EmptyString Hold'); [done|].
    rewrite <- Hb. by eapply candidates_child.
  - apply Container_get_no_candidates.
    apply findInstanceRetrievers_candidates; [done|].
    rewrite <- Hb. by eapply candidates_root.
Qed.

(** X14: a dependency that nobody binds is reported by its own name.
    When the construction started for [A] resolves first a dependency [X]
    for which the container of the context finds no binding, [get] for [A]
    throws [ComponentNotFoundException] for [X], not for [A], and has only
    entered the factory. *)
Theorem missing_dependency_is_named tt fuel this A r rest s X c h :
  findInstanceRetrievers (containers h) this (make_component_type A EmptyString)
  = Some (r :: rest) →
  storages h !! storage_ r = Some s →
  uncached s = true →
  TImplementation s ∉ tokens c →
  first_dependency tt (TImplementation s) = Some X →
  findInstanceRetrievers (containers h) (container_ c) (make_component_type X EmptyString)
  = Some [] →
  get tt (S (S fuel)) this A c h
  = (Throw (ComponentNotFoundException (make_component_type X EmptyString)), c,
     logged (storage_ r) h).
Proof.
  intros Hfind Hs Hun Hnin Hdep HX.
  change (get tt (S (S fuel)) this A) with (Container_get tt (get tt (S fuel)) this A).
  unfold Container_get, forwardInstance, getInstance. rewrite Hfind, Hs.
  rewrite (createInstance_descend tt (get tt (S fuel)) (storage_ r) (TImplementation s) X c h
             (ComponentNotFoundException (make_component_type X EmptyString))
             (logged (storage_ r) h) Hnin Hdep).
  - unfold uncached in Hun. destruct (mIsSingleton s); simpl in *; [|done].
    apply bool_decide_eq_true in Hun. by rewrite Hun.
  - change (get tt (S fuel) (container_ c) X)
      with (Container_get tt (get tt fuel) (container_ c) X).
    by apply Container_get_no_candidates.
Qed.

Lemma new_container_witness :
  get (tests_types false) 2 1 IRunner (root_context 1) (Container_new (Some 0) heap_runner).2
  = get (tests_types false) 2 0 IRunner (root_context 1) (Container_new (Some 0) heap_runner).2.
Proof.
  destruct (new_container_binds_nothing (tests_types false) (Some 0) heap_runner) as [_ H].
  - apply to_parents_older, wf_one_container.
  - intros p [= <-]. vm_compute. lia.
  - apply (H 2 IRunner (root_context 1)).
Defined.

Lemma missing_dependency_witness :
  get (tests_types false) 2 0 Ping (root_context 0) heap_ping_pong
  = (Throw (ComponentNotFoundException (make_component_type Unbound EmptyString)),
     root_context 0, logged 0 heap_ping_pong).
Proof.
  apply (missing_dependency_is_named (tests_types false) 0 0 Ping (mk_retriever 0)
           [] (mk_storage Ping false None) Unbound
           (root_context 0) heap_ping_pong).
  - by vm_compute.
  - by vm_compute.
  - by vm_compute.
  - apply (bool_decide_unpack _). by vm_compute.
  - by vm_compute.
  - by vm_compute.
Defined.

(** * Where the dependencies of a construction come from *)

Lemma rev_is_reverse {A} (l : list A) : rev l = reverse l.
Proof. unfold reverse. apply rev_alt. Qed.

Lemma arg_order_Forall2 {A B} tt (P : A → B → Prop) (l : list A) (k : list B) :
  Forall2 P (arg_order tt l) k → Forall2 P l (arg_order tt k).
Proof.
  unfold arg_order. destruct (right_to_left tt); [|done].
  intros H. rewrite <- (rev_involutive l). rewrite !rev_is_reverse in *.
  by apply Forall2_reverse.
Qed.

Lemma instance_of_first_candidate_earlier c h h1 h' k D b :
  evolves c h h1 →
  instance_of_first_candidate h1 h' k D b → instance_of_first_candidate h h' k D b.
Proof.
  intros Hev (r & rest & s1 & o & Hfind & Hs1 & Ho & Hty).
  rewrite (ev_containers _ _ _ Hev) in Hfind.
  destruct (Forall2_lookup_r _ _ _ _ _ (ev_storages _ _ _ Hev) Hs1) as (s & Hs & Hle).
  exists r, rest, s, o. rewrite <- (sle_impl _ _ Hle). done.
Qed.

Lemma instance_of_first_candidate_later c h h1 h' k D b :
  evolves c h1 h' →
  instance_of_first_candidate h h1 k D b → instance_of_first_candidate h h' k D b.
Proof.
  intros Hev (r & rest & s & o & Hfind & Hs & Ho & Hty).
  exists r, rest, s, o. split; [done|]. split; [done|]. split; [|done].
  eapply prefix_lookup_Some; [exact Ho|]. apply Hev.
Qed.

(** What [get] returns is an object of the first candidate's
    implementation. *)
Lemma get_Return_first_candidate tt n this D c h b c' h' :
  heap_ok tt h →
  get tt n this D c h = (Return b, c', h') →
  instance_of_first_candidate h h' this D b.
Proof.
  intros Hok E. destruct n as [|m]; [by injection E|].
  change (get tt (S m) this D) with (Container_get tt (get tt m) this D) in E.
  unfold Container_get, forwardInstance in E.
  destruct (findInstanceRetrievers _ _ _) as [[|r rest]|] eqn:Hfind; try by injection E.
  unfold getInstance in E.
  destruct (storages h !! storage_ r) as [s|] eqn:Hs; [|by injection E].
  exists r, rest, s.
  destruct (mIsSingleton s) eqn:Hf; simpl in E.
  - destruct (mInstance s) as [a0|] eqn:Ha.
    + injection E as <- <- <-.
      destruct (ok_cache tt h Hok _ s a0 Hs Ha) as (o & Ho & Hty). by exists o.
    + assert (getInstance tt (get tt m) (storage_ r) c h = (Return b, c', h')) as G.
      { unfold getInstance. by rewrite Hs, Hf, Ha. }
      destruct (getInstance_populate_Return tt (get tt m) (obeys_get tt m)
                  _ _ _ _ _ _ _ Hs Hf Ha G) as (_ & args & Ho & _).
      by eexists.
  - destruct (createInstance_Return tt (get tt m) (obeys_get tt m)
                _ _ _ _ _ _ _ Hs E) as (args & Ho & _).
    by eexists.
Qed.

Lemma get_args_Return_each tt n k args :
  ∀ c h ptrs c' h',
    heap_ok tt h →
    get_args (get tt n k) args c h = (Return ptrs, c', h') →
    Forall2 (instance_of_first_candidate h h' k) args ptrs.
Proof.
  induction args as [|D rest IH]; intros c h ptrs c' h' Hok; simpl.
  - intros [= <- <- <-]. constructor.
  - unfold bind at 1.
    destruct (obeys_get tt n k D c h) as (r1 & h1 & E1 & Hev1). rewrite E1.
    destruct r1 as [b|e| |]; try by intros [=].
    unfold bind.
    destruct (obeys_get_args (get tt n k) rest (λ T, obeys_get tt n k T) c h1)
      as (r2 & h2 & E2 & Hev2).
    rewrite E2. destruct r2 as [others|e| |]; try by intros [=].
    intros [= <- <- <-].
    destruct (get_sound tt n k D c h _ c h1 Hok E1) as [Hok1 _].
    constructor.
    + eapply instance_of_first_candidate_later; [exact Hev2|].
      by eapply get_Return_first_candidate.
    + eapply Forall2_impl; [by eapply IH|].
      intros D' b'. by apply instance_of_first_candidate_earlier with (c := c).
Qed.

(** C9: every constructor dependency is resolved through the container of
    the injection context.  When [get] for [I], called on any container
    [this] under context [c], constructs the implementation of its first
    candidate, the new object holds one dependency per constructor
    parameter, in the order of the parameters, and each is an object of the
    implementation that the container of [c] finds first for that
    parameter, whichever container holds the binding of [I].  For a
    top-level call on a child the container of [c] is the child: what the
    child binds for a parameter is used even when [I] is bound only in the
    parent. *)
Theorem constructor_dependencies_come_from_context_container
    tt fuel this I r rest s c h a c' h' :
  heap_ok tt h →
  findInstanceRetrievers (containers h) this (make_component_type I EmptyString)
  = Some (r :: rest) →
  storages h !! storage_ r = Some s →
  uncached s = true →
  get tt fuel this I c h = (Return a, c', h') →
  ∃ args,
    objects h' !! a = Some (mk_object (TImplementation s) args)
    ∧ Forall2 (instance_of_first_candidate h h' (container_ c))
        (ctor_args tt (TImplementation s)) args.
Proof.
  intros Hok Hfind Hs Hun E. destruct fuel as [|n]; [by injection E|].
  change (get tt (S n) this I) with (Container_get tt (get tt n) this I) in E.
  unfold Container_get, forwardInstance in E. rewrite Hfind in E.
  assert (∀ h1, createInstance tt (get tt n) (storage_ r) (TImplementation s) c h
                = (Return a, c', h1) →
                ∃ args,
                  objects h1 !! a = Some (mk_object (TImplementation s) args)
                  ∧ Forall2 (instance_of_first_candidate h h1 (container_ c))
                      (ctor_args tt (TImplementation s)) args) as Hcreate.
  { intros h1. unfold createInstance. cbv zeta. rewrite ensureNoCycle_pushType.
    case_bool_decide as Hin; [by intros [=]|].
    unfold factory_createInstance, invoke.
    set (c0 := pushType c _). set (hl := mk_heap _ _ _ _).
    change (getContainer c0) with (container_ c).
    unfold bind at 1.
    destruct (get_args _ _ c0 hl) as [[r1 c1] h2] eqn:E1.
    destruct r1 as [ptrs|e| |]; try by intros [=].
    unfold make_shared. intros [= <- <- <-].
    exists (arg_order tt ptrs). split.
    { simpl. by rewrite lookup_app_r, Nat.sub_diag. }
    apply arg_order_Forall2.
    assert (heap_ok tt hl) as Hokl by (by destruct Hok).
    pose proof (get_args_Return_each tt n (container_ c) _ c0 hl ptrs c1 h2 Hokl E1) as Hall.
    eapply Forall2_impl; [exact Hall|].
    intros D b (r' & rest' & s' & o & Hf' & Hs' & Ho & Hty).
    exists r', rest', s', o. split; [done|]. split; [done|]. split; [|done].
    simpl. by apply lookup_app_l_Some. }
  unfold getInstance in E. rewrite Hs in E. unfold uncached in Hun.
  destruct (mIsSingleton s) eqn:Hf; simpl in *; [|by apply Hcreate].
  apply bool_decide_eq_true in Hun. rewrite Hun in E.
  destruct (createInstance _ _ _ _ _ _) as [[r1 c1] h1] eqn:E1.
  destruct r1 as [a1|e| |]; try by injection E.
  injection E as <- <- <-.
  destruct (Hcreate h1 eq_refl) as (args & Ho & Hall).
  exists args. unfold set_mInstance.
  destruct (storages h1 !! storage_ r); simpl; [|done].
  split; [done|].
  eapply Forall2_impl; [exact Hall|].
  intros D b (r' & rest' & s' & o & Hf' & Hs' & Ho' & Hty).
  by exists r', rest', s', o.
Qed.

Lemma heap_ok_heap_family tt : heap_ok tt heap_family.
Proof.
  unfold heap_family, ToSelf.
  repeat apply heap_ok_to. apply heap_ok_Container_new.
  repeat apply heap_ok_to. apply heap_ok_one_container.
Qed.

Lemma context_container_witness :
  ∃ h' nest,
    get (tests_types false) 2 1 Spider (root_context 1) heap_family
    = (Return 1, root_context 1, h')
    ∧ objects h' !! 1 = Some (mk_object Spider [nest])
    ∧ instance_of_first_candidate heap_family h' 1 INest nest
    ∧ objects h' !! nest = Some (mk_object WaspNest []).
Proof.
  set (tt := tests_types false).
  set (h' := (get tt 2 1 Spider (root_context 1) heap_family).2).
  assert (get tt 2 1 Spider (root_context 1) heap_family = (Return 1, root_context 1, h'))
    as G by (by vm_compute).
  destruct (constructor_dependencies_come_from_context_container tt 2 1 Spider
              (mk_retriever 0) [] (mk_storage Spider false None) (root_context 1)
              heap_family 1 (root_context 1) h' (heap_ok_heap_family tt))
    as (args & Ho & Hall); try (by vm_compute).
  change (ctor_args tt (TImplementation (mk_storage Spider false None))) with [INest] in Hall.
  apply Forall2_cons_inv_l in Hall as (nest & args' & Hnest & Hrest & ->).
  apply Forall2_nil_inv_l in Hrest as ->.
  exists h', nest. split; [exact G|]. split; [exact Ho|]. split; [exact Hnest|].
  assert (objects h' !! 1 = Some (mk_object Spider [0])) as Ho' by (by vm_compute).
  rewrite Ho in Ho'. injection Ho' as ->. by vm_compute.
Defined.
